(** * Prompt refinement engine: a shallow embedding of
      [src/server/services/promptRefinement.js] and the properties of its
      sanitizer, classifier, template engine and orchestrator.

    Modelling conventions.
    - A JavaScript string is a [string]; one character of the model is one
      UTF-16 code unit below 256 (the Latin-1 range).  On that range
      [String.prototype.trim], the regular-expression class [\s] and
      [String.prototype.toLowerCase] are modelled exactly.
    - A JavaScript value handed to the service is JSON-shaped data
      ([value]): undefined, null, booleans, integer-valued numbers, strings,
      arrays and plain objects (an association list of own properties,
      first binding wins).
    - A function that can throw returns an [outcome]; the logger, the clock
      ([processingTime], [timestamp]) are left out of the result record; the
      remote completion call and [process.env.NODE_ENV] are the two fields
      of a [world]. *)

From Stdlib Require Import String Ascii List Bool Arith NArith ZArith Lia.
From Stdlib Require Import DecimalString.
Import ListNotations.
Open Scope string_scope.

(* ------------------------------------------------------------------ *)
(** ** Characters and the string primitives the service calls *)

Module Js.

Definition code (c : ascii) : N := N_of_ascii c.

(** The class [\s] (and the characters [trim] removes), below 256:
    TAB, LF, VT, FF, CR, SPACE, NBSP. *)
Definition is_space (c : ascii) : bool :=
  let n := code c in
  ((9 <=? n) && (n <=? 13) || (n =? 32) || (n =? 160))%N.

(** [toLowerCase] on one code unit: A-Z and the Latin-1 capitals
    U+00C0..U+00DE (U+00D7 excepted) move up by 32. *)
Definition is_upper (c : ascii) : bool :=
  let n := code c in
  ((65 <=? n) && (n <=? 90) || (192 <=? n) && (n <=? 222) && negb (n =? 215))%N.

Definition lower_char (c : ascii) : ascii :=
  if is_upper c then ascii_of_N (code c + 32) else c.

Fixpoint toLowerCase (s : string) : string :=
  match s with
  | EmptyString => EmptyString
  | String c r => String (lower_char c) (toLowerCase r)
  end.

Fixpoint trimStart (s : string) : string :=
  match s with
  | EmptyString => EmptyString
  | String c r => if is_space c then trimStart r else s
  end.

Fixpoint trimEnd (s : string) : string :=
  match s with
  | EmptyString => EmptyString
  | String c r =>
      match trimEnd r with
      | EmptyString => if is_space c then EmptyString else String c EmptyString
      | r' => String c r'
      end
  end.

Definition trim (s : string) : string := trimEnd (trimStart s).

(** [haystack.startsWith(needle)] *)
Fixpoint startsWith (haystack needle : string) {struct needle} : bool :=
  match needle, haystack with
  | EmptyString, _ => true
  | String _ _, EmptyString => false
  | String a n', String b h' => Ascii.eqb a b && startsWith h' n'
  end.

(** [haystack.includes(needle)] *)
Fixpoint includes (haystack needle : string) : bool :=
  startsWith haystack needle ||
  match haystack with
  | EmptyString => false
  | String _ h' => includes h' needle
  end.

(** [s.replace(/[class]/g, rep)]: every character of the class is a match. *)
Fixpoint replace_class (cls : ascii -> bool) (rep s : string) : string :=
  match s with
  | EmptyString => EmptyString
  | String c r =>
      if cls c then rep ++ replace_class cls rep r
      else String c (replace_class cls rep r)
  end.

(** [s.replace(/[class]+/g, rep)]: scanning from the left, a match starts at
    the first character of the class and greedily takes the whole run
    ([in_match]); the replacement is emitted once per match. *)
Fixpoint replace_runs (cls : ascii -> bool) (rep s : string) : string :=
  match s with
  | EmptyString => EmptyString
  | String c r =>
      if cls c then rep ++ in_match cls rep r
      else String c (replace_runs cls rep r)
  end
with in_match (cls : ascii -> bool) (rep s : string) : string :=
  match s with
  | EmptyString => EmptyString
  | String c r =>
      if cls c then in_match cls rep r
      else String c (replace_runs cls rep r)
  end.

(** [list.join(sep)] on a list of strings *)
Definition join (sep : string) (l : list string) : string := String.concat sep l.

End Js.

(* ------------------------------------------------------------------ *)
(** ** JavaScript values, errors and outcomes *)

#[warnings="-register-all"]
Inductive value : Type :=
| VUndefined
| VNull
| VBool (b : bool)
| VNum (n : Z)
| VStr (s : string)
| VArr (items : list value)
| VObj (props : list (string * value)).

(** The two kinds of exception the service meets: [new Error(msg)] thrown by
    its own code and the [TypeError] of the runtime. *)
Inductive js_error : Type :=
| JsError (msg : string)
| JsTypeError (msg : string).

Definition message (e : js_error) : string :=
  match e with JsError m => m | JsTypeError m => m end.

Inductive outcome (A : Type) : Type :=
| Ok (a : A)
| Throw (e : js_error).
Arguments Ok {A} a.
Arguments Throw {A} e.

Definition bind {A B} (m : outcome A) (k : A -> outcome B) : outcome B :=
  match m with
  | Ok a => k a
  | Throw e => Throw e
  end.

Notation "x <- m ;; k" := (bind m (fun x => k))
  (at level 61, m at next level, right associativity).

(** [try { body } catch (error) { handler }] *)
Definition try_catch {A} (body : outcome A) (handler : js_error -> outcome A)
  : outcome A :=
  match body with
  | Ok a => Ok a
  | Throw e => handler e
  end.

(** ToBoolean *)
Definition truthy (v : value) : bool :=
  match v with
  | VUndefined | VNull => false
  | VBool b => b
  | VNum n => negb (n =? 0)%Z
  | VStr s => negb (s =? "")
  | VArr _ | VObj _ => true
  end.

(** [typeof v] *)
Definition typeof (v : value) : string :=
  match v with
  | VUndefined => "undefined"
  | VNull => "object"
  | VBool _ => "boolean"
  | VNum _ => "number"
  | VStr _ => "string"
  | VArr _ | VObj _ => "object"
  end.

Fixpoint lookup (k : string) (props : list (string * value)) : option value :=
  match props with
  | [] => None
  | (k', v) :: rest => if k' =? k then Some v else lookup k rest
  end.

(** [v.name] for the property names the service reads ([complexity],
    [ageGroup], [lineThickness], [border], [theme], [useGPT]); none of them is
    defined on a prototype, so only own properties of a plain object answer. *)
Definition get_field (v : value) (name : string) : outcome value :=
  match v with
  | VUndefined =>
      Throw (JsTypeError ("Cannot read properties of undefined (reading '" ++ name ++ "')"))
  | VNull =>
      Throw (JsTypeError ("Cannot read properties of null (reading '" ++ name ++ "')"))
  | VObj props =>
      match lookup name props with
      | Some x => Ok x
      | None => Ok VUndefined
      end
  | _ => Ok VUndefined
  end.

(** [a || b] *)
Definition or_else (a b : value) : value := if truthy a then a else b.

(** [list.includes(v)] for a list of string literals (SameValueZero). *)
Definition includes_value (allowed : list string) (v : value) : bool :=
  match v with
  | VStr s => existsb (String.eqb s) allowed
  | _ => false
  end.

Definition has_own (name : string) (props : list (string * value)) : bool :=
  match lookup name props with Some _ => true | None => false end.

(** ToString, as a template literal applies it.  A plain object prints as
    [[object Object]] unless it has an own [toString] property: that one
    shadows [Object.prototype.toString], is not callable, and the conversion
    ends in a TypeError.  An array joins its elements with a comma, null and
    undefined elements printing as the empty string.  A number prints in
    plain decimal, as JavaScript does for integers below 10^21. *)
Fixpoint to_string (v : value) : outcome string :=
  match v with
  | VUndefined => Ok "undefined"
  | VNull => Ok "null"
  | VBool true => Ok "true"
  | VBool false => Ok "false"
  | VNum n => Ok (NilZero.string_of_int (Z.to_int n))
  | VStr s => Ok s
  | VArr items =>
      ss <- (fix elems (l : list value) : outcome (list string) :=
               match l with
               | [] => Ok []
               | x :: rest =>
                   s <- match x with
                        | VUndefined | VNull => Ok ""
                        | _ => to_string x
                        end ;;
                   ss <- elems rest ;;
                   Ok (s :: ss)
               end) items ;;
      Ok (Js.join "," ss)
  | VObj props =>
      if has_own "toString" props
      then Throw (JsTypeError "Cannot convert object to primitive value")
      else Ok "[object Object]"
  end.

Definition as_string (v : value) : string :=
  match v with VStr s => s | _ => "" end.

(* ------------------------------------------------------------------ *)
(** ** InputSanitizer *)

Module InputSanitizer.

(** The class of the first [replace]: less-than, greater-than, double quote,
    apostrophe and backtick (codes 60, 62, 34, 39, 96). *)
Definition is_harmful (c : ascii) : bool :=
  let n := Js.code c in
  ((n =? 60) || (n =? 62) || (n =? 34) || (n =? 39) || (n =? 96))%N.

(** The text after the three cleaning steps, before the length check. *)
Definition cleaned (s : string) : string :=
  let sanitized := Js.trim s in
  let sanitized := Js.replace_class is_harmful "" sanitized in
  let sanitized := Js.replace_runs Js.is_space " " sanitized in
  sanitized.

Definition sanitizeText (input : value) : outcome string :=
  if negb (truthy input) || negb (typeof input =? "string") then
    Throw (JsError "Invalid input: must be a non-empty string")
  else
    let sanitized := cleaned (as_string input) in
    if (String.length sanitized <? 1)%nat || (500 <? String.length sanitized)%nat then
      Throw (JsError "Input must be between 1 and 500 characters")
    else Ok sanitized.

(** The object [validateCustomizations] builds: a key is present only when
    the raw field was truthy and passed its check. *)
Record validatedCustomizations : Type := {
  vc_complexity : option string;
  vc_ageGroup : option string;
  vc_lineThickness : option string;
  vc_border : option string;
  vc_theme : option string
}.

Definition no_customizations : validatedCustomizations :=
  {| vc_complexity := None; vc_ageGroup := None; vc_lineThickness := None;
     vc_border := None; vc_theme := None |}.

Definition complexity_levels : list string := ["simple"; "medium"; "detailed"].
Definition age_groups : list string := ["kids"; "teens"; "adults"].
Definition line_thicknesses : list string := ["thin"; "medium"; "thick"].
Definition border_options : list string := ["with"; "without"].
Definition validThemes : list string :=
  ["animals"; "mandalas"; "fantasy"; "nature"; "vehicles"; "food"; "holidays"; "sports"].

(** One [if (customizations.f) { if (!allowed.includes(customizations.f))
    throw new Error(msg); validated.f = customizations.f }] block. *)
Definition validate_field (customizations : value) (name : string)
    (allowed : list string) (msg : string) : outcome (option string) :=
  x <- get_field customizations name ;;
  if truthy x then
    if negb (includes_value allowed x) then Throw (JsError msg)
    else Ok (Some (as_string x))
  else Ok None.

Definition validateCustomizations (customizations : value)
  : outcome validatedCustomizations :=
  if negb (truthy customizations) || negb (typeof customizations =? "object") then
    Ok no_customizations
  else
    complexity <- validate_field customizations "complexity" complexity_levels
                    "Invalid complexity level" ;;
    ageGroup <- validate_field customizations "ageGroup" age_groups
                  "Invalid age group" ;;
    lineThickness <- validate_field customizations "lineThickness" line_thicknesses
                       "Invalid line thickness" ;;
    border <- validate_field customizations "border" border_options
                "Invalid border option" ;;
    theme <- validate_field customizations "theme" validThemes "Invalid theme" ;;
    Ok {| vc_complexity := complexity; vc_ageGroup := ageGroup;
          vc_lineThickness := lineThickness; vc_border := border;
          vc_theme := theme |}.

Definition inappropriateKeywords : list string :=
  [ "violence"; "blood"; "weapon"; "gun"; "knife"; "death"; "kill"; "murder";
    "sexual"; "nude"; "naked"; "adult"; "explicit"; "inappropriate"; "sexy";
    "drug"; "alcohol"; "beer"; "wine"; "cigarette"; "smoking"; "marijuana";
    "scary"; "horror"; "demon"; "devil"; "evil"; "dark magic"; "satanic";
    "suicide"; "self-harm"; "cutting"; "depression"; "anxiety" ].

Definition foundInappropriate (input : string) : list string :=
  let lowerInput := Js.toLowerCase input in
  filter (fun keyword => Js.includes lowerInput keyword) inappropriateKeywords.

Definition checkFamilyFriendly (input : string) : outcome bool :=
  if (0 <? List.length (foundInappropriate input))%nat then
    Throw (JsError ("Content contains inappropriate terms: "
                    ++ Js.join ", " (foundInappropriate input)))
  else Ok true.

End InputSanitizer.

(* ------------------------------------------------------------------ *)
(** ** PromptRefinementService *)

Module PromptRefinementService.
Import InputSanitizer.

(** [this.subjectPatterns], in declaration order (the order
    [Object.entries] enumerates). *)
Definition subjectPatterns : list (string * list string) :=
  [
    ("domesticAnimals",
     [
      "dog"; "puppy"; "cat"; "kitten"; "rabbit"; "bunny"; "hamster";
      "guinea pig"; "bird"; "parrot"; "canary"; "fish"; "goldfish"; "horse";
      "pony"; "cow"; "pig"; "sheep"; "goat"; "chicken"; "duck"; "goose";
      "turkey"; "llama"; "alpaca" ]);
    ("wildAnimals",
     [
      "lion"; "tiger"; "elephant"; "giraffe"; "zebra"; "rhinoceros";
      "hippopotamus"; "bear"; "wolf"; "fox"; "deer"; "moose"; "elk";
      "squirrel"; "raccoon"; "monkey"; "ape"; "gorilla"; "chimpanzee";
      "kangaroo"; "koala"; "panda"; "leopard"; "cheetah"; "jaguar"; "lynx";
      "bobcat"; "buffalo"; "bison"; "camel" ]);
    ("prehistoric",
     [
      "dinosaur"; "tyrannosaurus"; "t-rex"; "triceratops"; "stegosaurus";
      "brontosaurus"; "velociraptor"; "pterodactyl"; "mammoth";
      "saber-tooth"; "sabertooth"; "dino"; "prehistoric"; "fossil"; "ancient" ]);
    ("marineLife",
     [
      "whale"; "dolphin"; "shark"; "octopus"; "squid"; "jellyfish";
      "starfish"; "seahorse"; "turtle"; "seal"; "walrus"; "penguin"; "crab";
      "lobster"; "shrimp"; "manta ray"; "stingray"; "coral"; "seaweed";
      "submarine" ]);
    ("insects",
     [
      "butterfly"; "bee"; "ladybug"; "spider"; "ant"; "grasshopper";
      "cricket"; "dragonfly"; "caterpillar"; "snail"; "worm"; "beetle";
      "moth"; "firefly"; "centipede" ]);
    ("fantasy",
     [
      "dragon"; "unicorn"; "fairy"; "mermaid"; "phoenix"; "griffin";
      "pegasus"; "centaur"; "elf"; "dwarf"; "troll"; "goblin"; "ogre";
      "wizard"; "witch"; "magic"; "magical"; "enchanted"; "mystical";
      "legendary"; "mythical"; "castle"; "tower"; "potion"; "wand" ]);
    ("nature",
     [
      "tree"; "forest"; "flower"; "rose"; "sunflower"; "daisy"; "tulip";
      "lily"; "garden"; "leaf"; "grass"; "bush"; "mountain"; "hill";
      "valley"; "river"; "lake"; "ocean"; "beach"; "desert"; "waterfall";
      "rainbow"; "cloud"; "sun"; "moon"; "star"; "snowflake"; "lightning";
      "landscape"; "scenery" ]);
    ("vehicles",
     [
      "car"; "truck"; "bus"; "motorcycle"; "bicycle"; "train"; "airplane";
      "helicopter"; "boat"; "ship"; "submarine"; "rocket"; "spaceship";
      "tank"; "tractor"; "fire truck"; "ambulance"; "police car"; "taxi";
      "van"; "jeep"; "sports car"; "race car"; "hot air balloon"; "scooter" ]);
    ("food",
     [
      "cake"; "cookie"; "ice cream"; "pizza"; "burger"; "sandwich"; "apple";
      "banana"; "orange"; "strawberry"; "cherry"; "donut"; "cupcake";
      "candy"; "chocolate"; "fruit"; "vegetable"; "bread"; "cheese"; "pie" ]);
    ("objects",
     [
      "house"; "home"; "chair"; "table"; "lamp"; "clock"; "book"; "toy";
      "ball"; "kite"; "balloon"; "umbrella"; "hat"; "shoe"; "bag"; "cup";
      "bottle"; "key"; "phone"; "computer" ]);
    ("sports",
     [
      "soccer"; "football"; "basketball"; "baseball"; "tennis"; "golf";
      "swimming"; "running"; "cycling"; "skating"; "skiing"; "surfing";
      "climbing"; "dancing"; "yoga" ]);
    ("holidays",
     [
      "christmas"; "halloween"; "easter"; "birthday"; "valentine";
      "thanksgiving"; "new year"; "party"; "celebration"; "gift"; "present";
      "ornament"; "decoration"; "holiday"; "festival" ]);
    ("music",
     [
      "guitar"; "piano"; "violin"; "drums"; "trumpet"; "flute"; "saxophone";
      "harp"; "organ"; "microphone" ]);
    ("mandalas",
     [
      "mandala"; "pattern"; "geometric"; "circular"; "symmetrical"; "ornate";
      "decorative"; "intricate"; "spiral"; "kaleidoscope" ]);
    ("abstract",
     [
      "abstract"; "artistic"; "design"; "creative"; "modern"; "contemporary";
      "minimalist"; "stylized"; "artistic pattern"; "art" ])
  ].

(** [this.enhancementTemplates] *)
Definition enhancementTemplates : list (string * list (string * (string -> string))) :=
  [
    ("domesticAnimals",
     [
      ("simple", fun subject =>
         "friendly " ++ subject ++
         " with basic features, cute expression, and simple pose");
      ("medium", fun subject =>
         "detailed " ++ subject ++
         " with natural fur/feather textures, expressive eyes, playful pose, and simple background elements");
      ("detailed", fun subject =>
         "intricate " ++ subject ++
         " with complex fur/feather patterns, highly detailed anatomical features, dynamic pose, environmental context, and companion elements") ]);
    ("wildAnimals",
     [
      ("simple", fun subject =>
         "majestic " ++ subject ++
         " with basic features, calm expression, and natural stance");
      ("medium", fun subject =>
         "detailed " ++ subject ++
         " with natural textures, environmental context, characteristic features, and habitat elements");
      ("detailed", fun subject =>
         "intricate " ++ subject ++
         " with complex patterns, detailed anatomy, natural habitat scene, weather effects, and ecosystem elements") ]);
    ("prehistoric",
     [
      ("simple", fun subject =>
         "friendly " ++ subject ++
         " with basic dinosaur features, simple prehistoric elements, and gentle appearance");
      ("medium", fun subject =>
         "detailed " ++ subject ++
         " with scale textures, prehistoric vegetation, volcanic landscape, and period-appropriate elements");
      ("detailed", fun subject =>
         "intricate " ++ subject ++
         " with complex scale patterns, detailed prehistoric ecosystem, volcanic activity, ancient plant life, and geological formations") ]);
    ("marineLife",
     [
      ("simple", fun subject =>
         "graceful " ++ subject ++
         " with basic aquatic features, simple water elements, and peaceful expression");
      ("medium", fun subject =>
         "detailed " ++ subject ++
         " with natural textures, ocean currents, coral reef elements, and marine ecosystem context");
      ("detailed", fun subject =>
         "intricate " ++ subject ++
         " with complex patterns, detailed underwater scene, coral formations, sea plants, and diverse marine life") ]);
    ("insects",
     [
      ("simple", fun subject =>
         "cute " ++ subject ++
         " with basic insect features, simple garden elements, and friendly appearance");
      ("medium", fun subject =>
         "detailed " ++ subject ++
         " with wing patterns, garden setting, flower elements, and natural textures");
      ("detailed", fun subject =>
         "intricate " ++ subject ++
         " with complex wing designs, detailed garden ecosystem, various flowers, leaves, and micro-environment elements") ]);
    ("fantasy",
     [
      ("simple", fun subject =>
         "magical " ++ subject ++
         " with basic fantasy elements, gentle mystical features, and enchanted appearance");
      ("medium", fun subject =>
         "enchanted " ++ subject ++
         " with mystical details, magical sparkles, fantasy landscape, and ethereal elements");
      ("detailed", fun subject =>
         "intricate " ++ subject ++
         " with complex magical patterns, detailed fantasy realm, mystical creatures, magical phenomena, and elaborate enchanted environment") ]);
    ("nature",
     [
      ("simple", fun subject =>
         "beautiful " ++ subject ++
         " with basic natural features, simple environmental elements, and peaceful setting");
      ("medium", fun subject =>
         "detailed " ++ subject ++
         " with natural textures, seasonal elements, wildlife touches, and environmental context");
      ("detailed", fun subject =>
         "intricate " ++ subject ++
         " with complex natural patterns, detailed ecosystem, weather effects, multiple layers of vegetation, and rich environmental detail") ]);
    ("vehicles",
     [
      ("simple", fun subject =>
         "cool " ++ subject ++
         " with basic vehicle features, simple design elements, and clean lines");
      ("medium", fun subject =>
         "detailed " ++ subject ++
         " with mechanical features, environmental setting, motion elements, and contextual background");
      ("detailed", fun subject =>
         "intricate " ++ subject ++
         " with complex mechanical details, dynamic scene, environmental context, technical elements, and rich background details") ]);
    ("food",
     [
      ("simple", fun subject =>
         "delicious " ++ subject ++
         " with basic food features, simple presentation, and appetizing appearance");
      ("medium", fun subject =>
         "detailed " ++ subject ++
         " with textures, garnishes, serving elements, and kitchen/dining context");
      ("detailed", fun subject =>
         "intricate " ++ subject ++
         " with complex textures, elaborate presentation, detailed ingredients, cooking elements, and rich culinary scene") ]);
    ("objects",
     [
      ("simple", fun subject =>
         "useful " ++ subject ++
         " with basic design features, simple form, and clean presentation");
      ("medium", fun subject =>
         "detailed " ++ subject ++
         " with textures, functional elements, environmental setting, and contextual details");
      ("detailed", fun subject =>
         "intricate " ++ subject ++
         " with complex design patterns, detailed components, rich environmental context, and elaborate decorative elements") ]);
    ("sports",
     [
      ("simple", fun subject =>
         "active " ++ subject ++
         " with basic sports elements, simple equipment, and dynamic pose");
      ("medium", fun subject =>
         "detailed " ++ subject ++
         " with sports equipment, playing field elements, action details, and athletic context");
      ("detailed", fun subject =>
         "intricate " ++ subject ++
         " with complex equipment details, detailed sports venue, crowd elements, dynamic action, and rich athletic environment") ]);
    ("holidays",
     [
      ("simple", fun subject =>
         "festive " ++ subject ++
         " with basic holiday elements, simple decorations, and celebratory mood");
      ("medium", fun subject =>
         "detailed " ++ subject ++
         " with holiday decorations, seasonal elements, traditional motifs, and festive atmosphere");
      ("detailed", fun subject =>
         "intricate " ++ subject ++
         " with elaborate decorations, detailed traditional elements, complex patterns, celebratory scenes, and rich holiday atmosphere") ]);
    ("music",
     [
      ("simple", fun subject =>
         "musical " ++ subject ++
         " with basic instrument features, simple musical elements, and harmonic design");
      ("medium", fun subject =>
         "detailed " ++ subject ++
         " with musical notes, performance setting, acoustic elements, and artistic details");
      ("detailed", fun subject =>
         "intricate " ++ subject ++
         " with complex musical patterns, detailed performance scene, ornate decorations, musical notation, and rich artistic environment") ]);
    ("mandalas",
     [
      ("simple", fun subject =>
         "geometric " ++ subject ++
         " with basic symmetrical patterns, simple repetitive elements, and balanced design");
      ("medium", fun subject =>
         "detailed " ++ subject ++
         " with intricate geometric patterns, layered symmetry, decorative elements, and balanced complexity");
      ("detailed", fun subject =>
         "complex " ++ subject ++
         " with elaborate geometric designs, multiple pattern layers, sophisticated symmetrical elements, and rich decorative details") ]);
    ("abstract",
     [
      ("simple", fun subject =>
         "artistic " ++ subject ++
         " with basic design elements, simple forms, and creative expression");
      ("medium", fun subject =>
         "detailed " ++ subject ++
         " with artistic patterns, creative elements, expressive forms, and design complexity");
      ("detailed", fun subject =>
         "intricate " ++ subject ++
         " with complex artistic patterns, elaborate design elements, sophisticated forms, and rich creative expression") ]);
    ("general",
     [
      ("simple", fun subject =>
         "simple " ++ subject ++
         " with basic details and clear features");
      ("medium", fun subject =>
         "detailed " ++ subject ++
         " with enhanced features, textures, and contextual elements");
      ("detailed", fun subject =>
         "intricate " ++ subject ++
         " with complex details, rich context, and sophisticated elements") ])
  ].

(** The settings object [config] of [refinePrompt]. *)
Record config : Type := {
  complexity : string;
  ageGroup : string;
  lineThickness : string;
  border : string;
  theme : option string
}.

(** What lies outside the service: the environment variable read at each
    call and the remote completion service.  [completions_create request]
    is [Some content] when the call answers and
    [response.choices[0].message.content] is the string [content], and
    [None] when the call or the reading of its answer throws. *)
Record world : Type := {
  NODE_ENV : option string;
  completions_create : string -> option string
}.

(** [obj[key]] on a literal table, for a key that is one of the table's own
    keys or is not a property name of [Object.prototype]: the service reads
    these tables with a detected category, a validated complexity and a
    validated age group only. *)
Fixpoint table_get {A} (key : string) (table : list (string * A)) : option A :=
  match table with
  | [] => None
  | (k, a) :: rest => if k =? key then Some a else table_get key rest
  end.

(** [validated.f || dflt] for a key that is absent or holds a string *)
Definition opt_or (o : option string) (dflt : string) : string :=
  match o with
  | Some s => if s =? "" then dflt else s
  | None => dflt
  end.

(** Number of patterns of one category found in the lower-cased input:
    [patterns.filter(pattern => lowercaseInput.includes(pattern)).length] *)
Definition score (lowercaseInput : string) (patterns : list string) : nat :=
  List.length (filter (fun pattern => Js.includes lowercaseInput pattern) patterns).

(** One turn of the loop over [Object.entries(this.subjectPatterns)]. *)
Definition visit (lowercaseInput : string) (bestMatch : string * nat)
    (entry : string * list string) : string * nat :=
  let (category, patterns) := entry in
  if (snd bestMatch <? score lowercaseInput patterns)%nat
  then (category, score lowercaseInput patterns)
  else bestMatch.

(** The loop: [bestMatch] starts as [{category: 'general', score: 0}]. *)
Definition bestMatch (catalog : list (string * list string))
    (lowercaseInput : string) : string * nat :=
  fold_left (visit lowercaseInput) catalog ("general", 0).

Definition detect_in (catalog : list (string * list string)) (input : string)
  : string :=
  let lowercaseInput := Js.toLowerCase input in
  fst (bestMatch catalog lowercaseInput).

Definition detectSubjectCategory (input : string) : string :=
  detect_in subjectPatterns input.

Definition adjustments : list (string * string) :=
  [ ("kids", ", with friendly expressions, safe rounded features, bright cheerful elements, and child-appropriate simplicity");
    ("teens", ", with moderate detail, contemporary style elements, dynamic composition, and age-appropriate complexity");
    ("adults", ", with sophisticated details, complex patterns, artistic elements, intricate design, and mature aesthetic appeal") ].

Definition getAgeAdjustment (ageGroup : string) : string :=
  match table_get ageGroup adjustments with
  | Some a => a
  | None => ", with balanced detail level and universal appeal"
  end.

Definition general_templates : list (string * (string -> string)) :=
  match table_get "general" enhancementTemplates with
  | Some t => t
  | None => []
  end.

Definition enhanceDescription (input category complexity ageGroup : string)
  : string :=
  let baseDescription := Js.trim input in
  let templates :=
    match table_get category enhancementTemplates with
    | Some t => t
    | None => general_templates
    end in
  let enhancedBase :=
    match table_get complexity templates with
    | Some template => template baseDescription
    | None => baseDescription
    end in
  let ageAdjustment := getAgeAdjustment ageGroup in
  enhancedBase ++ ageAdjustment.

(** The seven closing clauses of [specs], the style constraints. *)
Definition style_clauses : list string :=
  [ "coloring book style";
    "family-friendly content";
    "no shading or color fills";
    "clear distinct outlines";
    "high contrast black lines on white background";
    "300 DPI print quality";
    "suitable for coloring with crayons, markers, or colored pencils" ].

Definition applyColoringBookSpecs (description : string) (cfg : config)
  : string :=
  let specs :=
    List.app
    [ "professional black-and-white line art of";
      description;
      "optimized for " ++ complexity cfg ++ " complexity level";
      "designed for " ++ ageGroup cfg ++ " target audience";
      "featuring " ++ lineThickness cfg ++ " line thickness";
      if border cfg =? "with" then "with elegant decorative border elements"
      else "with clean edges and no border" ] style_clauses in
  Js.join ", " specs.

Definition templateRefinement (input : string) (cfg : config) : string :=
  let subjectCategory := detectSubjectCategory input in
  let enhancedDescription :=
    enhanceDescription input subjectCategory (complexity cfg) (ageGroup cfg) in
  let refinedPrompt := applyColoringBookSpecs enhancedDescription cfg in
  refinedPrompt.

Definition nl : string := String "010"%char EmptyString.
Definition dq : string := String "034"%char EmptyString.

Definition enhancementPrompt (input : string) (cfg : config) : string :=
  "Transform this coloring book request into an optimized DALL-E prompt for perfect black-and-white line art:" ++ nl ++
  nl ++
  "Original: " ++ dq ++ input ++ dq ++ nl ++
  "Target: " ++ ageGroup cfg ++ " (" ++ complexity cfg ++ " complexity, "
    ++ lineThickness cfg ++ " lines, "
    ++ (if border cfg =? "with" then "with border" else "no border") ++ ")" ++ nl ++
  nl ++
  "Requirements:" ++ nl ++
  "- Black-and-white line art only" ++ nl ++
  "- Age-appropriate for " ++ ageGroup cfg ++ nl ++
  "- " ++ complexity cfg ++ " level detail" ++ nl ++
  "- " ++ lineThickness cfg ++ " line thickness" ++ nl ++
  "- " ++ (if border cfg =? "with" then "Decorative border included"
           else "Clean edges, no border") ++ nl ++
  "- Family-friendly content" ++ nl ++
  "- Clear outlines, no shading" ++ nl ++
  "- 300 DPI print quality" ++ nl ++
  "- Professional coloring book style" ++ nl ++
  nl ++
  "Generate only the refined DALL-E prompt:".

(** [gptRefinement]: one remote call inside [try]; its [catch] returns the
    template method's prompt. *)
Definition gptRefinement (w : world) (input : string) (cfg : config) : string :=
  match completions_create w (enhancementPrompt input cfg) with
  | Some content =>
      let gptRefined := Js.trim content in
      gptRefined ++ ", black-and-white line art, coloring book style, family-friendly, no shading, clear outlines, 300 DPI, high contrast"
  | None => templateRefinement input cfg
  end.

Definition generic_prompt : string :=
  "black-and-white line art coloring book page, family-friendly, no shading, 300 DPI".

(** The [try] block of [createFallbackPrompt]. *)
Definition build_fallback (input customizations : value) : outcome string :=
  let sanitizedInput :=
    if typeof input =? "string" then Js.trim (as_string input) else "drawing" in
  c <- get_field customizations "complexity" ;;
  a <- get_field customizations "ageGroup" ;;
  l <- get_field customizations "lineThickness" ;;
  b <- get_field customizations "border" ;;
  let cfg_complexity := or_else c (VStr "medium") in
  let cfg_ageGroup := or_else a (VStr "kids") in
  let cfg_lineThickness := or_else l (VStr "medium") in
  let cfg_border := or_else b (VStr "with") in
  cs <- to_string cfg_complexity ;;
  ags <- to_string cfg_ageGroup ;;
  ls <- to_string cfg_lineThickness ;;
  Ok ("black-and-white line art of " ++ sanitizedInput ++ ", " ++ cs
      ++ " complexity, " ++ ags ++ " style, " ++ ls ++ " lines, "
      ++ (match cfg_border with
          | VStr s => if s =? "with" then "with border" else "no border"
          | _ => "no border"
          end)
      ++ ", coloring book style, family-friendly, no shading, 300 DPI").

(** A parameter declared [p = {}]: the default replaces [undefined] only. *)
Definition default_object (v : value) : value :=
  match v with VUndefined => VObj [] | _ => v end.

Definition createFallbackPrompt (input customizations : value) : string :=
  let customizations := default_object customizations in
  match build_fallback input customizations with
  | Ok s => s
  | Throw _ => generic_prompt
  end.

Record metadata : Type := {
  method : string;
  sanitized : bool;
  familyFriendly : option bool
}.

(** The object [refinePrompt] resolves to ([processingTime] and [timestamp]
    left out). *)
Record result : Type := {
  success : bool;
  refinedPrompt : string;
  originalInput : value;
  detectedCategory : option string;
  appliedSettings : option config;
  error : option string;
  meta : metadata
}.

(** [userInput?.substring(0, 100)]: short-circuits on null and undefined
    only; on any other value without a [substring] method the call throws. *)
Definition optional_substring (userInput : value) : outcome value :=
  match userInput with
  | VUndefined | VNull => Ok VUndefined
  | VStr s => Ok (VStr (substring 0 100 s))
  | _ => Throw (JsTypeError "userInput?.substring is not a function")
  end.

Definition is_development (w : world) : bool :=
  match NODE_ENV w with
  | Some e => e =? "development"
  | None => false
  end.

(** "Set defaults for missing customizations": the object [config]. *)
Definition with_defaults (validated : validatedCustomizations) : config :=
  {| complexity := opt_or (vc_complexity validated) "medium";
     ageGroup := opt_or (vc_ageGroup validated) "kids";
     lineThickness := opt_or (vc_lineThickness validated) "medium";
     border := opt_or (vc_border validated) "with";
     theme := match vc_theme validated with
              | Some t => if t =? "" then None else Some t
              | None => None
              end |}.

(** The [try] block of [refinePrompt]. *)
Definition refine_try (w : world) (userInput customizations options : value)
  : outcome result :=
  sanitizedInput <- sanitizeText userInput ;;
  validated <- validateCustomizations customizations ;;
  _ <- checkFamilyFriendly sanitizedInput ;;
  let cfg := with_defaults validated in
  useGPT <- get_field options "useGPT" ;;
  let (refined, how) :=
    if truthy useGPT && negb (is_development w)
    then (gptRefinement w sanitizedInput cfg, "gpt-enhanced")
    else (templateRefinement sanitizedInput cfg, "template-based") in
  Ok {| success := true;
        refinedPrompt := refined;
        originalInput := VStr sanitizedInput;
        detectedCategory := Some (detectSubjectCategory sanitizedInput);
        appliedSettings := Some cfg;
        error := None;
        meta := {| method := how; sanitized := true;
                   familyFriendly := Some true |} |}.

(** The [catch] block of [refinePrompt]. *)
Definition refine_catch (userInput customizations : value) (e : js_error)
  : outcome result :=
  _ <- optional_substring userInput ;;
  Ok {| success := false;
        refinedPrompt := createFallbackPrompt userInput customizations;
        originalInput := userInput;
        detectedCategory := None;
        appliedSettings := None;
        error := Some (message e);
        meta := {| method := "fallback"; sanitized := false;
                   familyFriendly := None |} |}.

Definition refinePrompt (w : world) (userInput customizations options : value)
  : outcome result :=
  let customizations := default_object customizations in
  let options := default_object options in
  try_catch (refine_try w userInput customizations options)
            (refine_catch userInput customizations).

(** *** getApiKey and healthCheck *)

Definition mock_key : string := "sk-mock-key-for-testing".

(** [process.env.OPENAI_API_KEY && key !== 'sk-mock-key-for-testing' &&
    key.startsWith('sk-')], as a condition; [key] is the environment
    variable, [None] when it is not set. *)
Definition hasRealKey (key : option string) : bool :=
  match key with
  | Some k => negb (k =? "") && negb (k =? mock_key) && Js.startsWith k "sk-"
  | None => false
  end.

Definition getApiKey (key : option string) : string :=
  if hasRealKey key then
    match key with Some k => k | None => mock_key end
  else mock_key.

Record features : Type := {
  inputSanitization : bool;
  expandedPatterns : nat;
  templateCount : nat;
  gptRefinementEnabled : bool;
  winstonLogging : bool
}.

(** The object [healthCheck] resolves to ([timestamp] and [responseTime]
    left out); an absent key is [None]. *)
Record health : Type := {
  status : string;
  environment : option string;
  healthFeatures : option features;
  mode : option string;
  apiKey : option string;
  openaiConnected : option bool;
  modelsAvailable : option nat;
  healthError : option string
}.

(** [healthCheck].  [models_list] is the outcome of
    [this.openai.models.list()]: the call throws, or it answers and
    [testResponse.data?.length] is the number given ([None] when [data] is
    missing). *)
Definition healthCheck (w : world) (models_list : outcome (option nat))
  : health :=
  let feats :=
    {| inputSanitization := true;
       expandedPatterns := List.length subjectPatterns;
       templateCount := List.length enhancementTemplates;
       gptRefinementEnabled := negb (is_development w);
       winstonLogging := true |} in
  let env := opt_or (NODE_ENV w) "production" in
  if is_development w then
    {| status := "healthy"; environment := Some env;
       healthFeatures := Some feats; mode := Some "development";
       apiKey := Some "mock"; openaiConnected := None;
       modelsAvailable := None; healthError := None |}
  else
    match models_list with
    | Ok data =>
        {| status := "healthy"; environment := Some env;
           healthFeatures := Some feats; mode := Some "production";
           apiKey := Some "configured"; openaiConnected := Some true;
           modelsAvailable :=
             Some (match data with Some n => n | None => 0 end);
           healthError := None |}
    | Throw e =>
        {| status := "unhealthy"; environment := None;
           healthFeatures := None; mode := None; apiKey := None;
           openaiConnected := None; modelsAvailable := None;
           healthError := Some (message e) |}
    end.

End PromptRefinementService.


(* ------------------------------------------------------------------ *)
(** ** The API server that calls the service
       (second half of [src/src/components/PromptComponent.jsx]) *)

Module ApiServer.
Import InputSanitizer PromptRefinementService.

(** [initializeOpenAI]: the key handed to the client. *)
Definition initializeOpenAI (key : option string) : string :=
  let hasRealKey :=
    match key with
    | Some k => negb (k =? "") && negb (k =? "sk-mock-key-for-testing")
                && Js.startsWith k "sk-"
    | None => false
    end in
  if hasRealKey then match key with Some k => k | None => "" end
  else "sk-mock-key-for-testing".

(** The block-list of the route validator. *)
Definition inappropriateKeywords : list string :=
  [ "violence"; "blood"; "weapon"; "gun"; "knife"; "death"; "kill";
    "sexual"; "nude"; "naked"; "adult"; "explicit"; "inappropriate";
    "drug"; "alcohol"; "beer"; "wine"; "cigarette"; "smoking";
    "scary"; "horror"; "demon"; "devil"; "evil"; "dark magic" ].

Definition isContentAppropriate (text : string) : bool :=
  let lowerText := Js.toLowerCase text in
  negb (existsb (fun keyword => Js.includes lowerText keyword)
          inappropriateKeywords).

(** The body sent by [GET /api/health] when nothing throws: the keys that
    depend on the service ([timestamp] and the constant keys left out). *)
Record health_response : Type := {
  code : nat;
  overall : string;
  responseEnvironment : string;
  openai : string;
  promptRefinement : string
}.

Definition api_health (w : world) (models_list : outcome (option nat))
  : health_response :=
  let refinementHealth := healthCheck w models_list in
  {| code := 200;
     overall := "ok";
     responseEnvironment := opt_or (NODE_ENV w) "production";
     openai := match openaiConnected refinementHealth with
               | Some true => "connected"
               | _ => "mock"
               end;
     promptRefinement := status refinementHealth |}.

(** The call both route handlers make:
    [promptRefinementService.refinePrompt(prompt, customizations)]. *)
Definition route_refine (w : world) (prompt customizations : value)
  : outcome result :=
  refinePrompt w prompt customizations VUndefined.

End ApiServer.

(* ------------------------------------------------------------------ *)
(** ** The form of [PromptComponent] *)

Module PromptForm.
Import InputSanitizer PromptRefinementService.

Record formData : Type := {
  prompt : string;
  theme : string;
  complexity : string;
  ageGroup : string;
  border : bool;
  lineThickness : string
}.

(** The initial state. *)
Definition initial : formData :=
  {| prompt := ""; theme := ""; complexity := ""; ageGroup := "";
     border := false; lineThickness := "" |}.

(** The [isValid] flags computed by the validation effect. *)
Record validation : Type := {
  promptValid : bool;
  complexityValid : bool;
  ageGroupValid : bool;
  lineThicknessValid : bool
}.

Definition newValidation (f : formData) : validation :=
  {| promptValid := (0 <? String.length (Js.trim (prompt f)))%nat;
     complexityValid := negb (complexity f =? "");
     ageGroupValid := negb (ageGroup f =? "");
     lineThicknessValid := negb (lineThickness f =? "") |}.

Definition isFormValid (v : validation) : bool :=
  promptValid v && complexityValid v && ageGroupValid v && lineThicknessValid v.

(** The [customizations] object of the request body built by
    [callPromptRefinementAPI]. *)
Definition customizations (f : formData) : value :=
  VObj [ ("complexity", VStr (complexity f));
         ("ageGroup", VStr (ageGroup f));
         ("lineThickness", VStr (lineThickness f));
         ("border", VStr (if border f then "with" else "without"));
         ("theme", if theme f =? "" then VNull else VStr (theme f)) ].

(** The values the controls of the form can put into the state: the radio
    and select options, or the initial empty string. *)
Definition theme_options : list string :=
  [""; "animals"; "mandalas"; "fantasy"; "nature"].
Definition complexity_options : list string := ["simple"; "medium"; "detailed"].
Definition ageGroup_options : list string := ["kids"; "teens"; "adults"].
Definition lineThickness_options : list string := [""; "thin"; "medium"; "thick"].

Definition from_controls (f : formData) : Prop :=
  In (theme f) theme_options
  /\ In (complexity f) ("" :: complexity_options)
  /\ In (ageGroup f) ("" :: ageGroup_options)
  /\ In (lineThickness f) lineThickness_options.

End PromptForm.

Import InputSanitizer PromptRefinementService.

(* ------------------------------------------------------------------ *)
(** ** Vocabulary of the statements *)

(** Every character of [s] satisfies [p]. *)
Fixpoint all_chars (p : ascii -> bool) (s : string) : bool :=
  match s with
  | EmptyString => true
  | String c r => p c && all_chars p r
  end.

(** A character the sanitizer neither removes nor rewrites. *)
Definition solid (c : ascii) : bool :=
  negb (Js.is_space c) && negb (is_harmful c).

Definition starts_with_space (s : string) : bool :=
  match s with
  | EmptyString => false
  | String c _ => Js.is_space c
  end.

Fixpoint ends_with_space (s : string) : bool :=
  match s with
  | EmptyString => false
  | String c EmptyString => Js.is_space c
  | String _ r => ends_with_space r
  end.

Definition not_harmful (c : ascii) : bool := negb (is_harmful c).

(** The two replacements of [sanitizeText], named. *)
Definition strip : string -> string := Js.replace_class is_harmful "".
Definition squeeze : string -> string := Js.replace_runs Js.is_space " ".
Definition squeeze_in : string -> string := Js.in_match Js.is_space " ".

(** No whitespace at either end. *)
Definition trimmed (s : string) : bool :=
  negb (starts_with_space s) && negb (ends_with_space s).

(** Every whitespace character is a single space standing alone. *)
Fixpoint single_spaced (s : string) : bool :=
  match s with
  | EmptyString => true
  | String c r =>
      (if Js.is_space c then Ascii.eqb c " " && negb (starts_with_space r)
       else true) && single_spaced r
  end.

(** The specification's wording of the cleaning steps: the listed characters
    are dropped, and the pieces of text between whitespace runs are put back
    together with one space between neighbours. *)
Fixpoint remove_chars (s : string) : string :=
  match s with
  | EmptyString => EmptyString
  | String c r => if is_harmful c then remove_chars r else String c (remove_chars r)
  end.

Definition push_char (c : ascii) (fields : list string) : list string :=
  match fields with
  | [] => [String c EmptyString]
  | f :: fs => String c f :: fs
  end.

Fixpoint ws_fields (s : string) : list string :=
  match s with
  | EmptyString => [EmptyString]
  | String c r =>
      if Js.is_space c then
        if starts_with_space r then ws_fields r else EmptyString :: ws_fields r
      else push_char c (ws_fields r)
  end.

Definition spec_clean (s : string) : string :=
  String.concat " " (ws_fields (remove_chars (Js.trim s))).

(** Number of positions of [haystack] at which [needle] occurs. *)
Fixpoint occurrences (haystack needle : string) : nat :=
  (if Js.startsWith haystack needle then 1 else 0) +
  match haystack with
  | EmptyString => 0
  | String _ h' => occurrences h' needle
  end.

Fixpoint distinct (l : list string) : bool :=
  match l with
  | [] => true
  | x :: r => negb (existsb (String.eqb x) r) && distinct r
  end.

(** The recognized preference fields with their enumerated sets. *)
Definition recognized : list (string * list string) :=
  [ ("complexity", complexity_levels);
    ("ageGroup", age_groups);
    ("lineThickness", line_thicknesses);
    ("border", border_options);
    ("theme", validThemes) ].

(** The raw value of a field of a customizations object. *)
Definition raw_field (customizations : value) (name : string) : value :=
  match get_field customizations name with
  | Ok v => v
  | Throw _ => VUndefined
  end.

(** The specification's wording of the fallback preferences: a field keeps
    its raw value only when that value passes validation, every other field
    takes the documented default. *)
Definition survives (customizations : value) (name : string)
    (allowed : list string) : option string :=
  let v := raw_field customizations name in
  if truthy v && includes_value allowed v then Some (as_string v) else None.

Definition spec_fallback_prompt (input : string) (customizations : value)
  : string :=
  "black-and-white line art of " ++ Js.trim input ++ ", "
  ++ opt_or (survives customizations "complexity" complexity_levels) "medium"
  ++ " complexity, "
  ++ opt_or (survives customizations "ageGroup" age_groups) "kids"
  ++ " style, "
  ++ opt_or (survives customizations "lineThickness" line_thicknesses) "medium"
  ++ " lines, "
  ++ (if opt_or (survives customizations "border" border_options) "with" =? "with"
      then "with border" else "no border")
  ++ ", coloring book style, family-friendly, no shading, 300 DPI".

(** Score of one catalog entry against the lower-cased input. *)
Definition entry_score (low : string) (entry : string * list string) : nat :=
  score low (snd entry).

(** The instruction string of a call that returned. *)
Definition prompt_of (m : outcome result) : option string :=
  match m with
  | Ok r => Some (refinedPrompt r)
  | Throw _ => None
  end.

(** The options object that asks for the remote completion path. *)
Definition with_gpt : value := VObj [("useGPT", VBool true)].

(** The subject the fallback builder puts into its string. *)
Definition fallback_subject (input : value) : string :=
  if typeof input =? "string" then Js.trim (as_string input) else "drawing".

(** The customizations object with an out-of-enum complexity. *)
Definition extreme : value := VObj [("complexity", VStr "extreme")].

(** A recognized field whose raw value is truthy and outside its set. *)
Definition rejected (customizations : value) (field : string * list string)
  : bool :=
  truthy (raw_field customizations (fst field))
  && negb (includes_value (snd field) (raw_field customizations (fst field))).

Definition field_of (v : validatedCustomizations) (name : string)
  : option string :=
  if name =? "complexity" then vc_complexity v
  else if name =? "ageGroup" then vc_ageGroup v
  else if name =? "lineThickness" then vc_lineThickness v
  else if name =? "border" then vc_border v
  else if name =? "theme" then vc_theme v
  else None.

(** [m] occurs somewhere inside [s]. *)
Definition infix_of (m s : string) : Prop := exists l r, s = l ++ m ++ r.

(** The raw value of a style field as the fallback builder reads it: the
    value itself when it is a non-empty string, the default when the field
    is absent or falsy. *)
Definition raw_or (customizations : value) (name dflt : string) : string :=
  as_string (or_else (raw_field customizations name) (VStr dflt)).

(** A style field that is absent or holds a string. *)
Definition textual (customizations : value) (name : string) : Prop :=
  raw_field customizations name = VUndefined \/
  exists s, raw_field customizations name = VStr s.

(** A prompt argument that is a string, or absent. *)
Definition text_or_absent (v : value) : bool :=
  match v with
  | VStr _ | VUndefined | VNull => true
  | _ => false
  end.

Definition default_settings : config :=
  {| complexity := "medium"; ageGroup := "kids"; lineThickness := "medium";
     border := "with"; theme := None |}.

(** Two deployments used in the examples. *)
Definition quiet : world :=
  {| NODE_ENV := None; completions_create := fun _ => None |}.

Definition production_offline : world :=
  {| NODE_ENV := Some "production"; completions_create := fun _ => None |}.

(** A character a sanitized text can contain: not one of the five removed
    characters, and no whitespace other than the space. *)
Definition plain_char (c : ascii) : bool :=
  not_harmful c && (negb (Js.is_space c) || Ascii.eqb c " ").

(** A phrase that the cleaning steps leave as it is: not empty, no
    whitespace at either end, single spaces only, none of the five
    characters. *)
Definition tidy (m : string) : bool :=
  negb (m =? "") && trimmed m && single_spaced m && all_chars not_harmful m.

(** The remote completion path is selected:
    [options.useGPT && process.env.NODE_ENV !== 'development']. *)
Definition gpt_selected (w : world) (options : value) : bool :=
  truthy (raw_field (default_object options) "useGPT")
  && negb (is_development w).

(** Settings all of whose values belong to their enumerated sets. *)
Definition valid_config (cfg : config) : Prop :=
  In (complexity cfg) complexity_levels
  /\ In (ageGroup cfg) age_groups
  /\ In (lineThickness cfg) line_thicknesses
  /\ In (border cfg) border_options
  /\ match theme cfg with
     | Some t => In t validThemes
     | None => True
     end.


(** The message [validateCustomizations] throws for a recognized field. *)
Definition field_message (name : string) : string :=
  if name =? "complexity" then "Invalid complexity level"
  else if name =? "ageGroup" then "Invalid age group"
  else if name =? "lineThickness" then "Invalid line thickness"
  else if name =? "border" then "Invalid border option"
  else "Invalid theme".

(** The clauses [gptRefinement] appends to the reply of the service. *)
Definition gpt_suffix : string :=
  ", black-and-white line art, coloring book style, family-friendly, no shading, clear outlines, 300 DPI, high contrast".

(** Phrases found in every instruction string the service hands out. *)
Definition safety_clauses : list string :=
  [ "black-and-white line art"; "coloring book"; "family-friendly";
    "no shading"; "300 DPI" ].

(** The terms the service blocks and the route validator does not. *)
Definition service_only_keywords : list string :=
  [ "murder"; "sexy"; "marijuana"; "satanic"; "suicide"; "self-harm";
    "cutting"; "depression"; "anxiety" ].

(** The settings a form state asks for. *)
Definition form_settings (f : PromptForm.formData) : config :=
  {| complexity := opt_or (Some (PromptForm.complexity f)) "medium";
     ageGroup := opt_or (Some (PromptForm.ageGroup f)) "kids";
     lineThickness := opt_or (Some (PromptForm.lineThickness f)) "medium";
     border := if PromptForm.border f then "with" else "without";
     theme := if PromptForm.theme f =? "" then None
              else Some (PromptForm.theme f) |}.

(* ------------------------------------------------------------------ *)
(** ** Facts about strings *)

Section StringFacts.

Lemma append_empty_r (s : string) : s ++ "" = s.
Proof. induction s as [|c s IH]; simpl; [reflexivity | now rewrite IH]. Qed.

Lemma append_assoc (a b c : string) : (a ++ b) ++ c = a ++ (b ++ c).
Proof. induction a as [|x a IH]; simpl; [reflexivity | now rewrite IH]. Qed.

Lemma length_append (a b : string) :
  String.length (a ++ b) = String.length a + String.length b.
Proof. induction a as [|x a IH]; simpl; [reflexivity | now rewrite IH]. Qed.

Lemma length_zero (s : string) : String.length s = 0 -> s = "".
Proof. destruct s; simpl; [reflexivity | discriminate]. Qed.

Lemma all_chars_append (p : ascii -> bool) (a b : string) :
  all_chars p (a ++ b) = all_chars p a && all_chars p b.
Proof.
  induction a as [|x a IH]; simpl; [reflexivity |].
  now rewrite IH, andb_assoc.
Qed.

Lemma ends_with_space_cons (c : ascii) (t : string) :
  ends_with_space (String c t) =
  match t with EmptyString => Js.is_space c | _ => ends_with_space t end.
Proof. destruct t; reflexivity. Qed.

Lemma all_space_ends (s : string) :
  all_chars Js.is_space s = true -> s <> "" -> ends_with_space s = true.
Proof.
  induction s as [|c s IH]; intros H N; [congruence |].
  simpl in H. apply andb_true_iff in H as [Hc Hs].
  rewrite ends_with_space_cons. destruct s; [exact Hc |].
  apply IH; [exact Hs | discriminate].
Qed.

End StringFacts.

(* ------------------------------------------------------------------ *)
(** ** trim *)

Section Trim.

Lemma trimStart_split (s : string) :
  exists l, s = l ++ Js.trimStart s /\ all_chars Js.is_space l = true
            /\ starts_with_space (Js.trimStart s) = false.
Proof.
  induction s as [|c s (l & E & Hl & Hs)].
  - exists "". now simpl.
  - simpl. destruct (Js.is_space c) eqn:Hc.
    + exists (String c l). simpl. rewrite Hc, Hl. now rewrite <- E.
    + exists "". simpl. now rewrite Hc.
Qed.

Lemma trimEnd_split (s : string) :
  exists r, s = Js.trimEnd s ++ r /\ all_chars Js.is_space r = true
            /\ ends_with_space (Js.trimEnd s) = false.
Proof.
  induction s as [|c s (r & E & Hr & Hs)].
  - exists "". now simpl.
  - simpl. destruct (Js.trimEnd s) as [|a t] eqn:Ht.
    + simpl in E. subst r. destruct (Js.is_space c) eqn:Hc.
      * exists (String c s). simpl. now rewrite Hc, Hr.
      * exists s. simpl. now rewrite Hc, Hr.
    + exists r. split; [simpl; now rewrite E at 1 | split; [exact Hr |]].
      rewrite ends_with_space_cons. exact Hs.
Qed.

Lemma trimEnd_keeps_head (c : ascii) (s : string) :
  Js.is_space c = false -> exists t, Js.trimEnd (String c s) = String c t.
Proof.
  intros Hc. simpl. destruct (Js.trimEnd s); rewrite ?Hc; eauto.
Qed.

Lemma trimEnd_start (s : string) :
  starts_with_space s = false -> starts_with_space (Js.trimEnd s) = false.
Proof.
  destruct s as [|c s]; [reflexivity |]. intros Hc. simpl in Hc.
  destruct (trimEnd_keeps_head c s Hc) as [t ->]. exact Hc.
Qed.

Lemma trim_trimmed (s : string) : trimmed (Js.trim s) = true.
Proof.
  unfold trimmed, Js.trim.
  destruct (trimStart_split s) as (l & _ & _ & Hs).
  destruct (trimEnd_split (Js.trimStart s)) as (r & _ & _ & He).
  now rewrite (trimEnd_start _ Hs), He.
Qed.

Lemma trim_split (s : string) :
  exists l r, s = l ++ Js.trim s ++ r /\ all_chars Js.is_space l = true
              /\ all_chars Js.is_space r = true.
Proof.
  destruct (trimStart_split s) as (l & E & Hl & _).
  destruct (trimEnd_split (Js.trimStart s)) as (r & E' & Hr & _).
  exists l, r. unfold Js.trim. now rewrite <- E', <- E.
Qed.

Lemma trimStart_fixed (s : string) :
  starts_with_space s = false -> Js.trimStart s = s.
Proof. destruct s as [|c s]; simpl; [reflexivity | now intros ->]. Qed.

Lemma trimEnd_fixed (s : string) :
  ends_with_space s = false -> Js.trimEnd s = s.
Proof.
  induction s as [|c s IH]; [reflexivity |].
  rewrite ends_with_space_cons. simpl. destruct s as [|a t].
  - simpl. now intros ->.
  - intros H. now rewrite (IH H).
Qed.

Lemma trim_fixed (s : string) : trimmed s = true -> Js.trim s = s.
Proof.
  unfold trimmed, Js.trim. intros H.
  apply andb_true_iff in H as [H1 H2].
  apply negb_true_iff in H1, H2.
  now rewrite (trimStart_fixed _ H1), (trimEnd_fixed _ H2).
Qed.

Lemma trimStart_length (s : string) :
  String.length (Js.trimStart s) <= String.length s.
Proof.
  induction s as [|c s IH]; simpl; [lia |].
  destruct (Js.is_space c); simpl; lia.
Qed.

Lemma trimStart_shorter (s : string) :
  starts_with_space s = true ->
  String.length (Js.trimStart s) < String.length s.
Proof.
  destruct s as [|c s]; simpl; [discriminate |]. intros ->.
  pose proof (trimStart_length s). lia.
Qed.

Lemma trimEnd_length (s : string) :
  String.length (Js.trimEnd s) <= String.length s.
Proof.
  induction s as [|c s IH]; simpl; [lia |].
  destruct (Js.trimEnd s); [destruct (Js.is_space c) |]; simpl in *; lia.
Qed.

Lemma trimEnd_shorter (s : string) :
  ends_with_space s = true ->
  String.length (Js.trimEnd s) < String.length s.
Proof.
  induction s as [|c s IH]; [discriminate |].
  rewrite ends_with_space_cons. destruct s as [|a t].
  - simpl. intros ->. simpl. lia.
  - intros H. specialize (IH H). change (Js.trimEnd (String c (String a t)))
      with (match Js.trimEnd (String a t) with
            | EmptyString => if Js.is_space c then EmptyString else String c EmptyString
            | r' => String c r'
            end).
    destruct (Js.trimEnd (String a t)); [destruct (Js.is_space c) |];
      simpl in *; lia.
Qed.

Lemma trim_length (s : string) : String.length (Js.trim s) <= String.length s.
Proof.
  unfold Js.trim. pose proof (trimEnd_length (Js.trimStart s)).
  pose proof (trimStart_length s). lia.
Qed.

Lemma trim_shorter (s : string) :
  trimmed s = false -> String.length (Js.trim s) < String.length s.
Proof.
  unfold trimmed, Js.trim. intros H.
  destruct (starts_with_space s) eqn:H1.
  - pose proof (trimStart_shorter _ H1).
    pose proof (trimEnd_length (Js.trimStart s)). lia.
  - simpl in H. apply negb_false_iff in H.
    rewrite (trimStart_fixed _ H1). now apply trimEnd_shorter.
Qed.

End Trim.

(* ------------------------------------------------------------------ *)
(** ** The two replacements of the sanitizer *)

Section Replace.

Lemma strip_remove_chars (s : string) : strip s = remove_chars s.
Proof.
  induction s as [|c s IH]; [reflexivity |].
  unfold strip in *. simpl. now rewrite IH.
Qed.

Lemma remove_chars_clean (s : string) :
  all_chars not_harmful (remove_chars s) = true.
Proof.
  induction s as [|c s IH]; [reflexivity |]. simpl.
  destruct (is_harmful c) eqn:Hc; [exact IH |].
  simpl. unfold not_harmful at 1. now rewrite Hc.
Qed.

Lemma remove_chars_fixed (s : string) :
  all_chars not_harmful s = true -> remove_chars s = s.
Proof.
  induction s as [|c s IH]; [reflexivity |]. simpl. intros H.
  apply andb_true_iff in H as [Hc Hs]. unfold not_harmful in Hc.
  apply negb_true_iff in Hc. now rewrite Hc, IH.
Qed.

Lemma remove_chars_length (s : string) :
  String.length (remove_chars s) <= String.length s.
Proof.
  induction s as [|c s IH]; simpl; [lia |].
  destruct (is_harmful c); simpl; lia.
Qed.

Lemma squeeze_cons (c : ascii) (s : string) :
  squeeze (String c s) =
  if Js.is_space c then String " " (squeeze_in s) else String c (squeeze s).
Proof. reflexivity. Qed.

Lemma squeeze_in_cons (c : ascii) (s : string) :
  squeeze_in (String c s) =
  if Js.is_space c then squeeze_in s else String c (squeeze s).
Proof. reflexivity. Qed.

Lemma squeeze_in_unspaced (s : string) :
  starts_with_space s = false -> squeeze_in s = squeeze s.
Proof.
  destruct s as [|c s]; [reflexivity |]. simpl. intros Hc.
  now rewrite squeeze_cons, squeeze_in_cons, Hc.
Qed.

Lemma squeeze_single_spaced (s : string) :
  single_spaced (squeeze s) = true /\
  single_spaced (squeeze_in s) = true /\
  starts_with_space (squeeze_in s) = false.
Proof.
  induction s as [|c s (IH1 & IH2 & IH3)]; [now simpl |].
  rewrite squeeze_cons, squeeze_in_cons.
  destruct (Js.is_space c) eqn:Hc.
  - repeat split; try assumption.
    simpl. now rewrite IH3, IH2.
  - repeat split; simpl; now rewrite Hc.
Qed.

Lemma squeeze_clean (s : string) :
  all_chars not_harmful s = true ->
  all_chars not_harmful (squeeze s) = true /\
  all_chars not_harmful (squeeze_in s) = true.
Proof.
  induction s as [|c s IH]; [now simpl |]. simpl. intros H.
  apply andb_true_iff in H as [Hc Hs]. destruct (IH Hs) as [IH1 IH2].
  rewrite squeeze_cons, squeeze_in_cons.
  destruct (Js.is_space c); simpl; rewrite ?Hc, ?IH1, ?IH2; now split.
Qed.

Lemma squeeze_fixed (s : string) :
  single_spaced s = true -> squeeze s = s.
Proof.
  induction s as [|c s IH]; [reflexivity |]. simpl. intros H.
  apply andb_true_iff in H as [Hc Hs]. rewrite squeeze_cons.
  destruct (Js.is_space c).
  - apply andb_true_iff in Hc as [Hc Hn].
    apply negb_true_iff in Hn. apply Ascii.eqb_eq in Hc. subst c.
    now rewrite (squeeze_in_unspaced _ Hn), (IH Hs).
  - now rewrite (IH Hs).
Qed.

Lemma squeeze_length (s : string) :
  String.length (squeeze s) <= String.length s /\
  String.length (squeeze_in s) <= String.length s.
Proof.
  induction s as [|c s [IH1 IH2]]; [simpl; lia |].
  rewrite squeeze_cons, squeeze_in_cons.
  destruct (Js.is_space c); simpl; lia.
Qed.

Lemma squeeze_in_empty (s : string) :
  squeeze_in s = "" -> all_chars Js.is_space s = true.
Proof.
  induction s as [|c s IH]; [reflexivity |].
  rewrite squeeze_in_cons. simpl.
  destruct (Js.is_space c); [exact IH | discriminate].
Qed.

Lemma squeeze_end (s : string) :
  ends_with_space s = false ->
  ends_with_space (squeeze s) = false /\
  ends_with_space (squeeze_in s) = false.
Proof.
  induction s as [|c s IH]; [now simpl |].
  rewrite ends_with_space_cons, squeeze_cons, squeeze_in_cons.
  destruct (Js.is_space c) eqn:Hc.
  - destruct s as [|a t] eqn:Es; [discriminate |]. rewrite <- Es in *.
    intros H. destruct (IH H) as [_ IH2]. split; [| exact IH2].
    rewrite ends_with_space_cons.
    destruct (squeeze_in s) eqn:Ei; [| exact IH2].
    apply squeeze_in_empty in Ei.
    rewrite all_space_ends in H; [discriminate | exact Ei | subst s; discriminate].
  - intros H. assert (E : ends_with_space (String c (squeeze s)) = false).
    { rewrite ends_with_space_cons. destruct s as [|a t] eqn:Es.
      - exact Hc.
      - rewrite <- Es in *. destruct (squeeze s) eqn:Eq; [exact Hc |].
        now destruct (IH H). }
    now split.
Qed.

Lemma squeeze_start (s : string) :
  starts_with_space s = false -> starts_with_space (squeeze s) = false.
Proof.
  destruct s as [|c s]; [reflexivity |]. simpl. intros Hc.
  now rewrite squeeze_cons, Hc.
Qed.

Lemma ws_fields_nonempty (s : string) : ws_fields s <> [].
Proof.
  induction s as [|c s IH]; simpl; [discriminate |].
  destruct (Js.is_space c).
  - destruct (starts_with_space s); [exact IH | discriminate].
  - destruct (ws_fields s); discriminate.
Qed.

Lemma concat_push_char (c : ascii) (fields : list string) :
  fields <> [] ->
  String.concat " " (push_char c fields) = String c (String.concat " " fields).
Proof.
  destruct fields as [|f [|g fs]]; [congruence | reflexivity | reflexivity].
Qed.

Lemma concat_cons_empty (fields : list string) :
  fields <> [] ->
  String.concat " " ("" :: fields) = String " " (String.concat " " fields).
Proof. destruct fields; [congruence | reflexivity]. Qed.

Lemma ws_fields_space (c : ascii) (s : string) :
  Js.is_space c = true -> ws_fields (String c s) = ws_fields (String " " s).
Proof. intros Hc. simpl. now rewrite Hc. Qed.

(** The regular-expression replacement is "split at the whitespace runs and
    join with one space". *)
Lemma squeeze_ws_fields (s : string) :
  squeeze s = String.concat " " (ws_fields s) /\
  String " " (squeeze_in s) = String.concat " " (ws_fields (String " " s)).
Proof.
  induction s as [|c s [IH1 IH2]]; [now simpl |].
  rewrite squeeze_cons, squeeze_in_cons.
  destruct (Js.is_space c) eqn:Hc.
  - rewrite (ws_fields_space c s Hc). split; [exact IH2 |].
    rewrite IH2. change (ws_fields (String " " (String c s)))
      with (if starts_with_space (String c s) then ws_fields (String c s)
            else "" :: ws_fields (String c s)).
    simpl starts_with_space. rewrite Hc.
    now rewrite (ws_fields_space c s Hc).
  - assert (E : String c (squeeze s) = String.concat " " (ws_fields (String c s))).
    { simpl ws_fields. rewrite Hc.
      rewrite concat_push_char by apply ws_fields_nonempty. now rewrite IH1. }
    split; [exact E |].
    change (ws_fields (String " " (String c s)))
      with (if starts_with_space (String c s) then ws_fields (String c s)
            else "" :: ws_fields (String c s)).
    simpl starts_with_space. rewrite Hc.
    rewrite concat_cons_empty by apply ws_fields_nonempty. now rewrite E.
Qed.

Lemma cleaned_spec_clean (s : string) : cleaned s = spec_clean s.
Proof.
  unfold cleaned, spec_clean.
  change (Js.replace_class is_harmful "" (Js.trim s)) with (strip (Js.trim s)).
  rewrite strip_remove_chars. apply squeeze_ws_fields.
Qed.

Lemma cleaned_shape (s : string) :
  all_chars not_harmful (cleaned s) = true /\ single_spaced (cleaned s) = true.
Proof.
  unfold cleaned.
  change (Js.replace_class is_harmful "" (Js.trim s)) with (strip (Js.trim s)).
  rewrite strip_remove_chars. split.
  - apply squeeze_clean, remove_chars_clean.
  - apply squeeze_single_spaced.
Qed.

Lemma cleaned_length (s : string) :
  String.length (cleaned s) <= String.length (Js.trim s).
Proof.
  unfold cleaned.
  change (Js.replace_class is_harmful "" (Js.trim s)) with (strip (Js.trim s)).
  rewrite strip_remove_chars.
  pose proof (proj1 (squeeze_length (remove_chars (Js.trim s)))).
  pose proof (remove_chars_length (Js.trim s)). unfold squeeze in *. lia.
Qed.

Lemma cleaned_fixed (s : string) :
  trimmed s = true -> all_chars not_harmful s = true ->
  single_spaced s = true -> cleaned s = s.
Proof.
  intros Ht Hh Hs. unfold cleaned. rewrite (trim_fixed _ Ht).
  change (Js.replace_class is_harmful "" s) with (strip s).
  rewrite strip_remove_chars, (remove_chars_fixed _ Hh).
  now apply squeeze_fixed.
Qed.

Lemma all_chars_trim (p : ascii -> bool) (s : string) :
  all_chars p s = true -> all_chars p (Js.trim s) = true.
Proof.
  destruct (trim_split s) as (l & r & E & _). intros H.
  rewrite E, !all_chars_append in H.
  apply andb_true_iff in H as [_ H]. now apply andb_true_iff in H as [H _].
Qed.

Lemma cleaned_trimmed (s : string) :
  all_chars not_harmful s = true -> trimmed (cleaned s) = true.
Proof.
  intros H. unfold cleaned.
  change (Js.replace_class is_harmful "" (Js.trim s)) with (strip (Js.trim s)).
  rewrite strip_remove_chars, (remove_chars_fixed _ (all_chars_trim _ _ H)).
  pose proof (trim_trimmed s) as T. unfold trimmed in *.
  apply andb_true_iff in T as [T1 T2]. apply negb_true_iff in T1, T2.
  fold squeeze. rewrite (squeeze_start _ T1), (proj1 (squeeze_end _ T2)).
  reflexivity.
Qed.

End Replace.

(* ------------------------------------------------------------------ *)
(** ** sanitizeText *)

Section SanitizeText.

Lemma sanitizeText_not_string (v : value) :
  (forall s, v <> VStr s) ->
  sanitizeText v = Throw (JsError "Invalid input: must be a non-empty string").
Proof.
  intros H. destruct v; unfold sanitizeText; simpl;
    rewrite ?orb_true_r; try reflexivity.
  now destruct (H s).
Qed.

Lemma sanitizeText_accepts (s y : string) :
  sanitizeText (VStr s) = Ok y <->
  y = cleaned s /\ 1 <= String.length (cleaned s) <= 500.
Proof.
  unfold sanitizeText. simpl. rewrite orb_false_r.
  destruct (String.eqb_spec s "") as [-> | N]; simpl.
  - split; [discriminate | intros [_ H]; vm_compute in H; lia].
  - destruct (Nat.ltb_spec (String.length (cleaned s)) 1),
             (Nat.ltb_spec 500 (String.length (cleaned s))); simpl; split;
      try discriminate; try (intros [_ ?]; lia).
    + intros [= <-]. split; [reflexivity | lia].
    + now intros [-> _].
Qed.

Lemma outcome_cases {A} (m : outcome A) :
  (exists e, m = Throw e) <-> ~ exists a, m = Ok a.
Proof.
  destruct m as [a | e]; split.
  - intros [e H]; discriminate.
  - intros H. exfalso. apply H. now exists a.
  - intros _ [a H]; discriminate.
  - intros _. now exists e.
Qed.

(** C9.  [sanitizeText] fails exactly when its argument is not a string or
    the cleaned text has fewer than 1 or more than 500 characters; otherwise
    it returns the cleaned text: the argument trimmed (whitespace taken off
    both ends and nothing else), with the five characters removed and the
    pieces between whitespace runs joined by single spaces. *)
Theorem sanitizeText_exact (input : value) :
  ((exists e, sanitizeText input = Throw e) <->
     (forall s, input <> VStr s) \/
     (exists s, input = VStr s /\ ~ 1 <= String.length (spec_clean s) <= 500))
  /\ (forall s, input = VStr s -> 1 <= String.length (spec_clean s) <= 500 ->
        sanitizeText input = Ok (spec_clean s))
  /\ (forall s, exists l r,
        s = l ++ Js.trim s ++ r /\ all_chars Js.is_space l = true
        /\ all_chars Js.is_space r = true /\ trimmed (Js.trim s) = true).
Proof.
  split; [| split].
  - rewrite outcome_cases. split.
    + intros H. destruct input;
        try (left; intros ? ?; discriminate).
      right. exists s. split; [reflexivity |]. intros L. apply H.
      exists (cleaned s). apply sanitizeText_accepts.
      now rewrite cleaned_spec_clean.
    + intros [H | (s & -> & H)] [y Hy].
      * rewrite (sanitizeText_not_string _ H) in Hy. discriminate.
      * apply sanitizeText_accepts in Hy as [_ L].
        now rewrite cleaned_spec_clean in L.
  - intros s -> L. apply sanitizeText_accepts.
    now rewrite cleaned_spec_clean.
  - intros s. destruct (trim_split s) as (l & r & E & Hl & Hr).
    exists l, r. repeat split; try assumption. apply trim_trimmed.
Qed.

Lemma sanitizeText_exact_witness :
  sanitizeText (VStr "  <b>two   words</b> ") = Ok "btwo words/b".
Proof.
  apply (proj1 (proj2 (sanitizeText_exact (VStr "  <b>two   words</b> ")))
           "  <b>two   words</b> " eq_refl).
  vm_compute. split; lia.
Defined.

(** C6 (amended).  For an accepted [x], sanitizing the sanitized text gives
    it back exactly when that text neither begins nor ends with a space;
    this is the case for every accepted [x] free of the five removed
    characters. *)
Theorem sanitizeText_idempotent_iff (x y : string) :
  sanitizeText (VStr x) = Ok y ->
  (sanitizeText (VStr y) = Ok y <-> trimmed y = true) /\
  (all_chars not_harmful x = true -> sanitizeText (VStr y) = Ok y).
Proof.
  intros H. apply sanitizeText_accepts in H as [-> L].
  destruct (cleaned_shape x) as [Hh Hs].
  assert (F : trimmed (cleaned x) = true ->
              sanitizeText (VStr (cleaned x)) = Ok (cleaned x)).
  { intros T. apply sanitizeText_accepts.
    rewrite (cleaned_fixed _ T Hh Hs). now split. }
  split; [split; [| exact F] |].
  - intros H. apply sanitizeText_accepts in H as [E _].
    destruct (trimmed (cleaned x)) eqn:T; [reflexivity |].
    pose proof (trim_shorter _ T). pose proof (cleaned_length (cleaned x)).
    rewrite <- E in *. lia.
  - intros C. apply F. now apply cleaned_trimmed.
Qed.

Lemma sanitizeText_idempotent_iff_witness :
  sanitizeText (VStr "  a   cute dog ") = Ok "a cute dog" /\
  sanitizeText (VStr "a cute dog") = Ok "a cute dog".
Proof.
  split; [reflexivity |].
  apply (proj2 (sanitizeText_idempotent_iff "  a   cute dog " "a cute dog" eq_refl)).
  reflexivity.
Defined.

(** C6 as stated fails: the prompt [< a] is accepted and sanitized to [ a]
    (the space uncovered by removing [<] stays), and sanitizing that gives
    [a]. *)
Lemma sanitizeText_not_idempotent :
  sanitizeText (VStr "< a") = Ok " a" /\
  sanitizeText (VStr " a") = Ok "a" /\
  sanitizeText (VStr " a") <> sanitizeText (VStr "< a").
Proof. split; [reflexivity | split; [reflexivity | discriminate]]. Qed.

End SanitizeText.

(* ------------------------------------------------------------------ *)
(** ** validateCustomizations *)

Section ValidateCustomizations.

Lemma validate_field_object (props : list (string * value)) (name : string)
    (allowed : list string) (msg : string) :
  validate_field (VObj props) name allowed msg =
  if rejected (VObj props) (name, allowed) then Throw (JsError msg)
  else Ok (survives (VObj props) name allowed).
Proof.
  unfold validate_field, rejected, survives, raw_field. simpl.
  destruct (lookup name props) as [x |]; simpl; [| reflexivity].
  destruct (truthy x); simpl; [| reflexivity].
  now destruct (includes_value allowed x).
Qed.

Lemma validateCustomizations_not_object (c : value) :
  (forall props, c <> VObj props) ->
  validateCustomizations c = Ok no_customizations.
Proof.
  intros H. destruct c as [| | b | n | s | items | props]; try reflexivity;
    try (unfold validateCustomizations; simpl; now rewrite orb_true_r).
  now destruct (H props).
Qed.

Lemma validateCustomizations_object (props : list (string * value)) :
  let c := VObj props in
  validateCustomizations c =
  if existsb (rejected c) recognized
  then Throw (JsError
         (if rejected c ("complexity", complexity_levels) then "Invalid complexity level"
          else if rejected c ("ageGroup", age_groups) then "Invalid age group"
          else if rejected c ("lineThickness", line_thicknesses) then "Invalid line thickness"
          else if rejected c ("border", border_options) then "Invalid border option"
          else "Invalid theme"))
  else Ok {| vc_complexity := survives c "complexity" complexity_levels;
             vc_ageGroup := survives c "ageGroup" age_groups;
             vc_lineThickness := survives c "lineThickness" line_thicknesses;
             vc_border := survives c "border" border_options;
             vc_theme := survives c "theme" validThemes |}.
Proof.
  intros c. unfold validateCustomizations, c.
  change (negb (truthy (VObj props)) || negb (typeof (VObj props) =? "object"))
    with false. cbv iota. rewrite !validate_field_object.
  unfold recognized, existsb.
  destruct (rejected _ ("complexity", _)); [reflexivity |].
  destruct (rejected _ ("ageGroup", _)); [reflexivity |].
  destruct (rejected _ ("lineThickness", _)); [reflexivity |].
  destruct (rejected _ ("border", _)); [reflexivity |].
  destruct (rejected _ ("theme", _)); reflexivity.
Qed.

Lemma rejected_not_object (c : value) (field : string * list string) :
  (forall props, c <> VObj props) -> rejected c field = false.
Proof.
  intros H. destruct c as [| | b | n | s | items | props]; try reflexivity.
  now destruct (H props).
Qed.

(** C10.  [validateCustomizations] throws exactly when its argument is an
    object one of whose recognized fields holds a truthy value outside the
    field's set; an argument that is not an object gives the empty preference
    set; and in an accepted result a field is present exactly when its raw
    value is truthy and in the set, so a falsy raw value leaves it out. *)
Theorem validateCustomizations_rejects_only_bad_enum (customizations : value) :
  ((exists e, validateCustomizations customizations = Throw e) <->
     (exists props, customizations = VObj props) /\
     exists field, In field recognized /\ rejected customizations field = true)
  /\ ((forall props, customizations <> VObj props) ->
        validateCustomizations customizations = Ok no_customizations)
  /\ (forall v field,
        validateCustomizations customizations = Ok v -> In field recognized ->
        field_of v (fst field) = survives customizations (fst field) (snd field)
        /\ (truthy (raw_field customizations (fst field)) = false ->
            field_of v (fst field) = None)).
Proof.
  split; [| split].
  - split.
    + intros [e H]. destruct customizations as [| | b | n | s | items | props];
        try (rewrite validateCustomizations_not_object in H by discriminate;
             discriminate).
      split; [now exists props |].
      rewrite validateCustomizations_object in H.
      destruct (existsb _ recognized) eqn:E; [| discriminate].
      apply existsb_exists in E as (field & Hin & Hr). now exists field.
    + intros [[props ->] (field & Hin & Hr)].
      rewrite validateCustomizations_object.
      assert (E : existsb (rejected (VObj props)) recognized = true)
        by (apply existsb_exists; now exists field).
      rewrite E. eauto.
  - apply validateCustomizations_not_object.
  - intros v field H Hin.
    assert (G : field_of v (fst field)
                = survives customizations (fst field) (snd field)).
    { destruct customizations as [| | b | n | s | items | props];
        try (rewrite validateCustomizations_not_object in H by discriminate;
             injection H as <-;
             simpl in Hin; intuition (subst; reflexivity)).
      rewrite validateCustomizations_object in H.
      destruct (existsb _ recognized); [discriminate |].
      injection H as <-.
      simpl in Hin. intuition (subst; reflexivity). }
    split; [exact G |]. intros F. rewrite G. unfold survives. now rewrite F.
Qed.

Lemma validateCustomizations_rejects_only_bad_enum_witness :
  field_of no_customizations "complexity" = None.
Proof.
  apply (proj2 (proj2 (proj2 (validateCustomizations_rejects_only_bad_enum
                         (VObj [("complexity", VStr "")])))
                 no_customizations ("complexity", complexity_levels)
                 eq_refl (or_introl eq_refl))).
  reflexivity.
Defined.

End ValidateCustomizations.

(* ------------------------------------------------------------------ *)
(** ** includes, toLowerCase, and what the cleaning steps keep *)

Section Includes.

Lemma startsWith_split (h n : string) :
  Js.startsWith h n = true <-> exists r, h = n ++ r.
Proof.
  revert h. induction n as [|a n IH]; intros h; simpl.
  - split; [intros _; now exists h | reflexivity].
  - destruct h as [|b h].
    + split; [discriminate | intros [r H]; discriminate].
    + rewrite andb_true_iff, Ascii.eqb_eq, IH. split.
      * intros [-> [r ->]]. now exists r.
      * intros [r [= -> ->]]. split; [reflexivity | now exists r].
Qed.

Lemma includes_infix (h n : string) :
  Js.includes h n = true <-> infix_of n h.
Proof.
  unfold infix_of. induction h as [|c h IH].
  - simpl. rewrite orb_false_r, startsWith_split. split.
    + intros [r H]. now exists "", r.
    + intros (l & r & H). destruct l; [now exists r | discriminate].
  - simpl. rewrite orb_true_iff, startsWith_split, IH. split.
    + intros [[r H] | (l & r & H)].
      * now exists "", r.
      * exists (String c l), r. simpl. now rewrite H.
    + intros (l & r & H). destruct l as [|x l].
      * left. now exists r.
      * right. injection H as _ H. now exists l, r.
Qed.

Lemma infix_refl_app (l m r : string) : infix_of m (l ++ m ++ r).
Proof. now exists l, r. Qed.

Lemma infix_prepend (p m s : string) : infix_of m s -> infix_of m (p ++ s).
Proof.
  intros (l & r & ->). exists (p ++ l), r. now rewrite append_assoc.
Qed.

Lemma infix_postpend (p m s : string) : infix_of m s -> infix_of m (s ++ p).
Proof.
  intros (l & r & ->). exists l, (r ++ p). now rewrite !append_assoc.
Qed.

Lemma infix_concat (sep k : string) (l : list string) :
  In k l -> infix_of k (String.concat sep l).
Proof.
  induction l as [|x l IH]; [intros [] |].
  intros [-> | H].
  - destruct l; simpl.
    + exists "", "". now rewrite append_empty_r.
    + now exists "", (sep ++ String.concat sep (s :: l)).
  - specialize (IH H). destruct l as [|y l]; [destruct H |].
    change (String.concat sep (x :: y :: l))
      with (x ++ sep ++ String.concat sep (y :: l)).
    now apply infix_prepend, infix_prepend.
Qed.

Lemma toLowerCase_append (a b : string) :
  Js.toLowerCase (a ++ b) = Js.toLowerCase a ++ Js.toLowerCase b.
Proof. induction a as [|c a IH]; simpl; [reflexivity | now rewrite IH]. Qed.

Lemma toLowerCase_split (s a b : string) :
  Js.toLowerCase s = a ++ b ->
  exists s1 s2, s = s1 ++ s2 /\ Js.toLowerCase s1 = a /\ Js.toLowerCase s2 = b.
Proof.
  revert s. induction a as [|x a IH]; intros s H.
  - now exists "", s.
  - destruct s as [|c s]; [discriminate |]. simpl in H.
    injection H as Hc H. destruct (IH _ H) as (s1 & s2 & -> & H1 & H2).
    exists (String c s1), s2. simpl. now rewrite Hc, H1.
Qed.

Lemma lower_char_idempotent (c : ascii) :
  Js.lower_char (Js.lower_char c) = Js.lower_char c.
Proof.
  destruct c as [[] [] [] [] [] [] [] []]; reflexivity.
Qed.

Lemma toLowerCase_idempotent (s : string) :
  Js.toLowerCase (Js.toLowerCase s) = Js.toLowerCase s.
Proof.
  induction s as [|c s IH]; simpl; [reflexivity |].
  now rewrite lower_char_idempotent, IH.
Qed.

Lemma solid_lower_char (c : ascii) : solid (Js.lower_char c) = solid c.
Proof.
  destruct c as [[] [] [] [] [] [] [] []]; reflexivity.
Qed.

Lemma solid_toLowerCase (s : string) :
  all_chars solid (Js.toLowerCase s) = all_chars solid s.
Proof.
  induction s as [|c s IH]; simpl; [reflexivity |].
  now rewrite solid_lower_char, IH.
Qed.

Lemma all_chars_weaken (p q : ascii -> bool) (s : string) :
  (forall c, p c = true -> q c = true) ->
  all_chars p s = true -> all_chars q s = true.
Proof.
  intros W. induction s as [|c s IH]; simpl; [reflexivity |].
  intros H. apply andb_true_iff in H as [Hc Hs].
  now rewrite (W _ Hc), (IH Hs).
Qed.

Lemma solid_not_space (c : ascii) :
  solid c = true -> negb (Js.is_space c) = true.
Proof. unfold solid. intros H. now apply andb_true_iff in H. Qed.

Lemma solid_not_harmful (c : ascii) : solid c = true -> not_harmful c = true.
Proof. unfold solid. intros H. now apply andb_true_iff in H. Qed.

Lemma trimEnd_cons_unspaced (c : ascii) (s : string) :
  Js.is_space c = false -> Js.trimEnd (String c s) = String c (Js.trimEnd s).
Proof. intros H. simpl. destruct (Js.trimEnd s); now rewrite ?H. Qed.

Lemma trimEnd_cons_nonempty (c : ascii) (s : string) :
  Js.trimEnd s <> "" -> Js.trimEnd (String c s) = String c (Js.trimEnd s).
Proof. intros H. simpl. destruct (Js.trimEnd s); [congruence | reflexivity]. Qed.

Lemma trimEnd_word (m r : string) :
  all_chars (fun c => negb (Js.is_space c)) m = true ->
  Js.trimEnd (m ++ r) = m ++ Js.trimEnd r.
Proof.
  induction m as [|c m IH]; [reflexivity |]. simpl. intros H.
  apply andb_true_iff in H as [Hc Hm]. apply negb_true_iff in Hc.
  change (Js.trimEnd (String c (m ++ r)) = String c (m ++ Js.trimEnd r)).
  now rewrite (trimEnd_cons_unspaced _ _ Hc), (IH Hm).
Qed.

Lemma trimEnd_after (a s : string) :
  Js.trimEnd s <> "" -> Js.trimEnd (a ++ s) = a ++ Js.trimEnd s.
Proof.
  intros N. induction a as [|c a IH]; [reflexivity |].
  change (Js.trimEnd (String c (a ++ s)) = String c (a ++ Js.trimEnd s)).
  rewrite trimEnd_cons_nonempty, IH; [reflexivity |].
  rewrite IH. destruct a; [exact N | discriminate].
Qed.

Lemma trimStart_before (l s : string) :
  starts_with_space s = false -> exists l', Js.trimStart (l ++ s) = l' ++ s.
Proof.
  intros H. induction l as [|c l [l' IH]].
  - exists "". apply (trimStart_fixed _ H).
  - simpl. destruct (Js.is_space c); [now exists l' | now exists (String c l)].
Qed.

(** A non-empty run [m] of non-whitespace characters inside [s] is still
    inside [trim s]. *)
Lemma trim_keeps (m s : string) :
  m <> "" -> all_chars (fun c => negb (Js.is_space c)) m = true ->
  infix_of m s -> infix_of m (Js.trim s).
Proof.
  intros N H (l & r & ->). unfold Js.trim.
  assert (S : starts_with_space (m ++ r) = false).
  { destruct m as [|c m]; [congruence |]. simpl in *.
    apply andb_true_iff in H as [Hc _]. now apply negb_true_iff in Hc. }
  destruct (trimStart_before l _ S) as [l' ->].
  rewrite trimEnd_after.
  - rewrite (trimEnd_word _ _ H). apply infix_refl_app.
  - rewrite (trimEnd_word _ _ H). destruct m; [congruence | discriminate].
Qed.

Lemma remove_chars_append (a b : string) :
  remove_chars (a ++ b) = remove_chars a ++ remove_chars b.
Proof.
  induction a as [|c a IH]; [reflexivity |]. simpl.
  destruct (is_harmful c); simpl; now rewrite IH.
Qed.

Lemma strip_keeps (m s : string) :
  all_chars not_harmful m = true -> infix_of m s -> infix_of m (strip s).
Proof.
  intros H (l & r & ->). rewrite strip_remove_chars, !remove_chars_append.
  rewrite (remove_chars_fixed _ H). apply infix_refl_app.
Qed.

Lemma squeeze_word (m r : string) :
  all_chars (fun c => negb (Js.is_space c)) m = true ->
  squeeze (m ++ r) = m ++ squeeze r.
Proof.
  induction m as [|c m IH]; [reflexivity |]. simpl. intros H.
  apply andb_true_iff in H as [Hc Hm]. apply negb_true_iff in Hc.
  change (squeeze (String c (m ++ r)) = String c (m ++ squeeze r)).
  now rewrite squeeze_cons, Hc, (IH Hm).
Qed.

Lemma squeeze_before (l s : string) :
  starts_with_space s = false ->
  (exists l', squeeze (l ++ s) = l' ++ squeeze s) /\
  (exists l', squeeze_in (l ++ s) = l' ++ squeeze s).
Proof.
  intros H. induction l as [|c l [[l1 IH1] [l2 IH2]]].
  - split; exists ""; [reflexivity | apply (squeeze_in_unspaced _ H)].
  - change (String c l ++ s) with (String c (l ++ s)).
    rewrite squeeze_cons, squeeze_in_cons. destruct (Js.is_space c).
    + rewrite IH2. split; [now exists (String " " l2) | now exists l2].
    + rewrite IH1. split; now exists (String c l1).
Qed.

Lemma squeeze_keeps (m s : string) :
  m <> "" -> all_chars (fun c => negb (Js.is_space c)) m = true ->
  infix_of m s -> infix_of m (squeeze s).
Proof.
  intros N H (l & r & ->).
  assert (S : starts_with_space (m ++ r) = false).
  { destruct m as [|c m]; [congruence |]. simpl in *.
    apply andb_true_iff in H as [Hc _]. now apply negb_true_iff in Hc. }
  destruct (squeeze_before l _ S) as [[l' ->] _].
  rewrite (squeeze_word _ _ H). apply infix_refl_app.
Qed.

Lemma cleaned_keeps (m s : string) :
  m <> "" -> all_chars solid m = true -> infix_of m s -> infix_of m (cleaned s).
Proof.
  intros N H I.
  pose proof (all_chars_weaken _ _ _ solid_not_space H) as Hs.
  pose proof (all_chars_weaken _ _ _ solid_not_harmful H) as Hh.
  unfold cleaned. apply (squeeze_keeps _ _ N Hs). apply (strip_keeps _ _ Hh).
  now apply trim_keeps.
Qed.

(** A keyword made of characters the sanitizer leaves alone, present in the
    lower-cased raw text, is present in the lower-cased cleaned text. *)
Lemma cleaned_keeps_keyword (k s : string) :
  all_chars solid k = true ->
  Js.includes (Js.toLowerCase s) k = true ->
  Js.includes (Js.toLowerCase (cleaned s)) k = true.
Proof.
  intros H I. destruct k as [|c k];
    [destruct (Js.toLowerCase (cleaned s)); reflexivity |].
  apply includes_infix in I as (L & R & E).
  apply toLowerCase_split in E as (l & mr & -> & <- & E).
  apply toLowerCase_split in E as (m & r & -> & Em & <-).
  assert (N : m <> "") by (intros ->; discriminate).
  rewrite <- Em, solid_toLowerCase in H.
  destruct (cleaned_keeps _ _ N H (infix_refl_app l m r)) as (l' & r' & ->).
  apply includes_infix. rewrite <- Em, !toLowerCase_append.
  apply infix_refl_app.
Qed.

End Includes.

(* ------------------------------------------------------------------ *)
(** ** The classifier *)

Section BestMatch.

Variable low : string.

(** After the loop, either nothing beat the initial best, or the best is
    the first entry that reaches the maximum score. *)
Lemma fold_visit_first_max (catalog : list (string * list string))
    (best : string * nat) :
  (fold_left (visit low) catalog best = best /\
   forall e, In e catalog -> entry_score low e <= snd best)
  \/
  (exists i e,
     nth_error catalog i = Some e /\
     fold_left (visit low) catalog best = (fst e, entry_score low e) /\
     snd best < entry_score low e /\
     (forall j e', j < i -> nth_error catalog j = Some e' ->
                   entry_score low e' < entry_score low e) /\
     (forall e', In e' catalog -> entry_score low e' <= entry_score low e)).
Proof.
  revert best. induction catalog as [|e0 rest IH]; intros best.
  - left. split; [reflexivity | intros e []].
  - simpl fold_left.
    assert (V : visit low best e0 =
                if (snd best <? entry_score low e0)%nat
                then (fst e0, entry_score low e0) else best)
      by (destruct e0; reflexivity).
    rewrite V. destruct (Nat.ltb_spec (snd best) (entry_score low e0)) as [L | L].
    + right. destruct (IH (fst e0, entry_score low e0))
        as [[E A] | (i & e & N & E & B & P & A)]; simpl in *.
      * exists 0, e0. repeat split; try assumption.
        -- intros j e' Hj. lia.
        -- intros e' [<- | H]; [lia | now apply A].
      * exists (S i), e. repeat split; try assumption; try lia.
        -- intros [|j] e' Hj Hn; simpl in Hn.
           ++ injection Hn as <-. lia.
           ++ apply (P j); [lia | exact Hn].
        -- intros e' [<- | H]; [lia | now apply A].
    + destruct (IH best) as [[E A] | (i & e & N & E & B & P & A)].
      * left. split; [exact E |]. intros e [<- | H]; [lia | now apply A].
      * right. exists (S i), e. repeat split; try assumption.
        -- intros [|j] e' Hj Hn; simpl in Hn.
           ++ injection Hn as <-. lia.
           ++ apply (P j); [lia | exact Hn].
        -- intros e' [<- | H]; [lia | now apply A].
Qed.

Variable catalog : list (string * list string).
Hypothesis names_distinct : NoDup (map fst catalog).
Hypothesis general_free : forall e, In e catalog -> fst e <> "general".

Lemma bestMatch_cases :
  (bestMatch catalog low = ("general", 0) /\ forall e, In e catalog -> entry_score low e = 0)
  \/
  (exists i e,
     nth_error catalog i = Some e /\ bestMatch catalog low = (fst e, entry_score low e) /\
     0 < entry_score low e /\
     (forall j e', j < i -> nth_error catalog j = Some e' ->
                   entry_score low e' < entry_score low e) /\
     (forall e', In e' catalog -> entry_score low e' <= entry_score low e)).
Proof.
  unfold bestMatch.
  destruct (fold_visit_first_max catalog ("general", 0)) as [[E A] | H].
  - left. split; [exact E |]. intros e He. specialize (A e He). simpl in A. lia.
  - right. exact H.
Qed.

Lemma same_name_same_index (i j : nat) (ei ej : string * list string) :
  nth_error catalog i = Some ei -> nth_error catalog j = Some ej ->
  fst ei = fst ej -> i = j.
Proof.
  intros Hi Hj E.
  apply (proj1 (NoDup_nth_error (map fst catalog)) names_distinct).
  - rewrite length_map. apply nth_error_Some. congruence.
  - rewrite !nth_error_map, Hi, Hj. simpl. now rewrite E.
Qed.

(** The later of two entries with equal scores is never the answer. *)
Lemma later_of_tie_loses (i j : nat) (ci cj : string * list string) :
  i < j -> nth_error catalog i = Some ci -> nth_error catalog j = Some cj ->
  entry_score low ci = entry_score low cj ->
  fst (bestMatch catalog low) <> fst cj.
Proof.
  intros L Hi Hj T E.
  destruct bestMatch_cases as [[B _] | (k & e & N & B & _ & P & _)];
    rewrite B in E; simpl in E.
  - apply (general_free cj); [now apply nth_error_In with j | now symmetry].
  - assert (k = j) by now apply same_name_same_index with e cj.
    subst k. assert (e = cj) by congruence. subst e.
    specialize (P i ci L Hi). lia.
Qed.

(** The first entry that reaches the maximum score is the answer. *)
Lemma first_maximum_wins (i : nat) (ci : string * list string) :
  nth_error catalog i = Some ci ->
  0 < entry_score low ci ->
  (forall e, In e catalog -> entry_score low e <= entry_score low ci) ->
  (forall k ek, k < i -> nth_error catalog k = Some ek ->
                entry_score low ek < entry_score low ci) ->
  fst (bestMatch catalog low) = fst ci.
Proof.
  intros Hi Pos Max First.
  destruct bestMatch_cases as [[_ Z] | (k & e & N & B & _ & P & A)].
  - specialize (Z ci (nth_error_In _ _ Hi)). lia.
  - rewrite B. simpl.
    destruct (Nat.lt_trichotomy k i) as [L | [-> | L]].
    + specialize (First k e L N). specialize (A ci (nth_error_In _ _ Hi)). lia.
    + congruence.
    + specialize (P i ci L Hi). specialize (Max e (nth_error_In _ _ N)). lia.
Qed.

Lemma bestMatch_named :
  In (fst (bestMatch catalog low)) ("general" :: map fst catalog).
Proof.
  destruct bestMatch_cases as [[B _] | (k & e & N & B & _)]; rewrite B; simpl.
  - now left.
  - right. apply in_map. now apply nth_error_In with k.
Qed.

Lemma all_zero_general :
  (forall e, In e catalog -> entry_score low e = 0) -> fst (bestMatch catalog low) = "general".
Proof.
  intros Z.
  destruct bestMatch_cases as [[B _] | (k & e & N & B & Pos & _)].
  - now rewrite B.
  - specialize (Z e (nth_error_In _ _ N)). lia.
Qed.

End BestMatch.

Section SubjectCatalog.

Lemma distinct_NoDup (l : list string) : distinct l = true -> NoDup l.
Proof.
  induction l as [|x l IH]; simpl; intros H; constructor.
  - apply andb_true_iff in H as [H _]. apply negb_true_iff in H.
    intros Hin. assert (E : existsb (String.eqb x) l = true).
    { apply existsb_exists. exists x. split; [exact Hin | apply String.eqb_refl]. }
    congruence.
  - apply andb_true_iff in H as [_ H]. now apply IH.
Qed.

Lemma subjectPatterns_names_distinct : NoDup (map fst subjectPatterns).
Proof. apply distinct_NoDup. vm_compute. reflexivity. Qed.

Lemma subjectPatterns_general_free (e : string * list string) :
  In e subjectPatterns -> fst e <> "general".
Proof.
  intros H.
  assert (F : forallb (fun e => negb (fst e =? "general")) subjectPatterns = true)
    by (vm_compute; reflexivity).
  rewrite forallb_forall in F. specialize (F e H).
  apply negb_true_iff in F. now apply String.eqb_neq.
Qed.

Lemma subjectPatterns_phrases_distinct (category : string) (patterns : list string) :
  In (category, patterns) subjectPatterns -> NoDup patterns.
Proof.
  intros H.
  assert (F : forallb (fun e => distinct (snd e)) subjectPatterns = true)
    by (vm_compute; reflexivity).
  rewrite forallb_forall in F. apply distinct_NoDup. exact (F _ H).
Qed.

Lemma includes_occurrences (h n : string) :
  Js.includes h n = (0 <? occurrences h n)%nat.
Proof.
  induction h as [|c h IH]; simpl.
  - now destruct (Js.startsWith "" n).
  - rewrite IH. destruct (Js.startsWith (String c h) n); simpl; [| reflexivity].
    reflexivity.
Qed.

Lemma score_counts_phrases (low : string) (patterns : list string) :
  score low patterns =
  List.length (filter (fun p => (0 <? occurrences low p)%nat) patterns)
  /\ score low patterns <= List.length patterns.
Proof.
  unfold score. split.
  - f_equal. apply filter_ext. intros p. apply includes_occurrences.
  - induction patterns as [|p l IH]; simpl; [lia |].
    destruct (Js.includes low p); simpl; lia.
Qed.

(** C4.  Of two categories with equal scores the one declared later is
    never returned; and when the tie is at the top score, the first category
    that reaches it is the one returned. *)
Theorem detectSubjectCategory_tie_break (input : string) (i j : nat)
    (ci cj : string * list string) :
  i < j ->
  nth_error subjectPatterns i = Some ci ->
  nth_error subjectPatterns j = Some cj ->
  entry_score (Js.toLowerCase input) ci = entry_score (Js.toLowerCase input) cj ->
  detectSubjectCategory input <> fst cj /\
  (0 < entry_score (Js.toLowerCase input) ci ->
   (forall e, In e subjectPatterns ->
      entry_score (Js.toLowerCase input) e <= entry_score (Js.toLowerCase input) ci) ->
   (forall k ek, k < i -> nth_error subjectPatterns k = Some ek ->
      entry_score (Js.toLowerCase input) ek < entry_score (Js.toLowerCase input) ci) ->
   detectSubjectCategory input = fst ci).
Proof.
  intros L Hi Hj T. split.
  - apply (later_of_tie_loses (Js.toLowerCase input) subjectPatterns
             subjectPatterns_names_distinct subjectPatterns_general_free
             i j ci cj L Hi Hj T).
  - intros Pos Max First.
    apply (first_maximum_wins (Js.toLowerCase input) subjectPatterns
             i ci Hi Pos Max First).
Qed.

Lemma detectSubjectCategory_tie_break_witness :
  detectSubjectCategory "dog lion" <> "wildAnimals" /\
  detectSubjectCategory "dog lion" = "domesticAnimals".
Proof.
  assert (T : entry_score (Js.toLowerCase "dog lion") (nth 0 subjectPatterns ("", []))
              = entry_score (Js.toLowerCase "dog lion") (nth 1 subjectPatterns ("", [])))
    by (vm_compute; reflexivity).
  destruct (detectSubjectCategory_tie_break "dog lion" 0 1
              (nth 0 subjectPatterns ("", [])) (nth 1 subjectPatterns ("", []))
              (Nat.lt_0_succ 0) eq_refl eq_refl T) as [H1 H2].
  split; [exact H1 |]. apply H2.
  - vm_compute. apply le_n.
  - intros e He. apply Nat.leb_le. revert e He. apply forallb_forall.
    vm_compute. reflexivity.
  - intros k ek Hk. inversion Hk.
Defined.

(** C5.  [detectSubjectCategory] is a function of its input alone and
    returns a name of the catalog or [general]; a category's score is the
    number of its phrases, no two of them equal, that occur at least once in
    the lower-cased input, however many times each occurs; and when every
    category scores 0 the answer is [general]. *)
Theorem detectSubjectCategory_total (input : string) :
  In (detectSubjectCategory input) ("general" :: map fst subjectPatterns)
  /\ (forall category patterns,
        In (category, patterns) subjectPatterns ->
        NoDup patterns
        /\ score (Js.toLowerCase input) patterns =
           List.length (filter (fun p => (0 <? occurrences (Js.toLowerCase input) p)%nat)
                          patterns)
        /\ score (Js.toLowerCase input) patterns <= List.length patterns)
  /\ (forall phrase,
        (0 <? occurrences (Js.toLowerCase input) phrase)%nat = true <->
        infix_of phrase (Js.toLowerCase input))
  /\ ((forall category patterns,
         In (category, patterns) subjectPatterns ->
         score (Js.toLowerCase input) patterns = 0) ->
      detectSubjectCategory input = "general").
Proof.
  split; [| split; [| split]].
  - apply bestMatch_named.
  - intros category patterns H. split.
    + now apply subjectPatterns_phrases_distinct with category.
    + apply score_counts_phrases.
  - intros phrase. rewrite <- includes_occurrences. apply includes_infix.
  - intros Z. apply all_zero_general. intros [c ps] H. apply (Z c ps H).
Qed.

Lemma detectSubjectCategory_total_witness :
  detectSubjectCategory "a wyvern" = "general".
Proof.
  apply (proj2 (proj2 (proj2 (detectSubjectCategory_total "a wyvern")))).
  intros category patterns H.
  change (entry_score (Js.toLowerCase "a wyvern") (category, patterns) = 0).
  apply Nat.eqb_eq. revert H. generalize (category, patterns).
  apply forallb_forall. vm_compute. reflexivity.
Defined.

End SubjectCatalog.

(* ------------------------------------------------------------------ *)
(** ** The orchestrator *)

Arguments detectSubjectCategory : simpl never.
Arguments templateRefinement : simpl never.
Arguments gptRefinement : simpl never.
Arguments createFallbackPrompt : simpl never.
Arguments enhancementPrompt : simpl never.

Section Orchestrator.

Lemma concat_app (sep : string) (a b : list string) :
  a <> [] -> b <> [] ->
  String.concat sep (a ++ b)%list
  = String.concat sep a ++ sep ++ String.concat sep b.
Proof.
  intros Ha Hb. induction a as [|x a IH]; [congruence |].
  destruct a as [|y a].
  - destruct b; [congruence | reflexivity].
  - change (String.concat sep ((x :: y :: a) ++ b)%list)
      with (x ++ sep ++ String.concat sep ((y :: a) ++ b)%list).
    rewrite IH by discriminate.
    change (String.concat sep (x :: y :: a))
      with (x ++ sep ++ String.concat sep (y :: a)).
    now rewrite !append_assoc.
Qed.

(** The style constraints close every template-path prompt. *)
Lemma applyColoringBookSpecs_tail (description : string) (cfg : config) :
  exists front,
    applyColoringBookSpecs description cfg
    = front ++ ", " ++ Js.join ", " style_clauses.
Proof.
  unfold applyColoringBookSpecs, Js.join. eexists.
  apply concat_app; discriminate.
Qed.

Lemma applyColoringBookSpecs_nonempty (description : string) (cfg : config) :
  applyColoringBookSpecs description cfg <> "".
Proof.
  assert (H : exists rest, applyColoringBookSpecs description cfg = String "p" rest)
    by (eexists; reflexivity).
  destruct H as [rest ->]. discriminate.
Qed.

Lemma gptRefinement_nonempty (w : world) (input : string) (cfg : config) :
  gptRefinement w input cfg <> "".
Proof.
  unfold gptRefinement. destruct (completions_create w _) as [content |].
  - destruct (Js.trim content); discriminate.
  - apply applyColoringBookSpecs_nonempty.
Qed.

Lemma build_fallback_head (input customizations : value) (text : string) :
  build_fallback input customizations = Ok text ->
  exists rest,
    text = "black-and-white line art of " ++ fallback_subject input ++ ", " ++ rest.
Proof.
  unfold build_fallback, bind.
  destruct (get_field customizations "complexity"); [| discriminate].
  destruct (get_field customizations "ageGroup"); [| discriminate].
  destruct (get_field customizations "lineThickness"); [| discriminate].
  destruct (get_field customizations "border"); [| discriminate].
  destruct (to_string (or_else a _)); [| discriminate].
  destruct (to_string (or_else a0 _)); [| discriminate].
  destruct (to_string (or_else a1 _)); [| discriminate].
  intros [= <-]. eexists. reflexivity.
Qed.

Lemma default_object_idempotent (v : value) :
  default_object (default_object v) = default_object v.
Proof. now destruct v. Qed.

Lemma createFallbackPrompt_default (input customizations : value) :
  createFallbackPrompt input (default_object customizations)
  = createFallbackPrompt input customizations.
Proof.
  unfold createFallbackPrompt. now rewrite default_object_idempotent.
Qed.

Lemma createFallbackPrompt_nonempty (input customizations : value) :
  createFallbackPrompt input customizations <> "".
Proof.
  unfold createFallbackPrompt.
  destruct (build_fallback _ _) as [text | e] eqn:E; [| discriminate].
  apply build_fallback_head in E as [rest ->]. discriminate.
Qed.

Lemma createFallbackPrompt_generic (input customizations : value) :
  createFallbackPrompt input customizations = generic_prompt <->
  exists e, build_fallback input (default_object customizations) = Throw e.
Proof.
  unfold createFallbackPrompt.
  destruct (build_fallback _ _) as [text | e] eqn:E; split.
  - apply build_fallback_head in E as [rest ->]. discriminate.
  - intros [e H]. discriminate.
  - intros _. now exists e.
  - reflexivity.
Qed.

(** What the [try] block returns when nothing in it throws. *)
Lemma refine_try_Ok (w : world) (userInput customizations options : value)
    (r : result) :
  refine_try w userInput customizations options = Ok r ->
  exists y v g,
    sanitizeText userInput = Ok y /\
    validateCustomizations customizations = Ok v /\
    (exists b, checkFamilyFriendly y = Ok b) /\
    get_field options "useGPT" = Ok g /\
    r = {| success := true;
           refinedPrompt :=
             if truthy g && negb (is_development w)
             then gptRefinement w y (with_defaults v)
             else templateRefinement y (with_defaults v);
           originalInput := VStr y;
           detectedCategory := Some (detectSubjectCategory y);
           appliedSettings := Some (with_defaults v);
           error := None;
           meta := {| method := if truthy g && negb (is_development w)
                                then "gpt-enhanced" else "template-based";
                      sanitized := true;
                      familyFriendly := Some true |} |}.
Proof.
  unfold refine_try, bind.
  destruct (sanitizeText userInput) as [y |]; [| discriminate].
  destruct (validateCustomizations customizations) as [v |]; [| discriminate].
  destruct (checkFamilyFriendly y) as [b |] eqn:C; [| discriminate].
  destruct (get_field options "useGPT") as [g |]; [| discriminate].
  intros H. exists y, v, g. repeat split; eauto.
  destruct (truthy g && negb (is_development w)); now injection H as <-.
Qed.

(** What the [catch] block returns for a prompt that is a string or absent. *)
Lemma refine_catch_text (userInput customizations : value) (e : js_error) :
  text_or_absent userInput = true ->
  refine_catch userInput customizations e =
  Ok {| success := false;
        refinedPrompt := createFallbackPrompt userInput customizations;
        originalInput := userInput;
        detectedCategory := None;
        appliedSettings := None;
        error := Some (message e);
        meta := {| method := "fallback"; sanitized := false;
                   familyFriendly := None |} |}.
Proof. destruct userInput; try discriminate; reflexivity. Qed.

(** The slip in the [catch] block: a prompt that is neither a string nor
    absent makes [userInput?.substring(0, 100)] throw, and the exception
    leaves [refinePrompt]. *)
Lemma refinePrompt_throws_on_other (w : world)
    (userInput customizations options : value) :
  text_or_absent userInput = false ->
  refinePrompt w userInput customizations options
  = Throw (JsTypeError "userInput?.substring is not a function").
Proof.
  intros T. unfold refinePrompt, try_catch, refine_try, bind.
  rewrite (sanitizeText_not_string userInput)
    by (intros s ->; discriminate).
  destruct userInput; try discriminate; reflexivity.
Qed.

End Orchestrator.

(* ------------------------------------------------------------------ *)
(** ** Moderation *)

Section Moderation.

Lemma filter_none {A} (f : A -> bool) (l : list A) :
  (forall x, In x l -> f x = false) -> filter f l = [].
Proof.
  induction l as [|x l IH]; intros H; [reflexivity |]. simpl.
  rewrite (H x (or_introl eq_refl)). apply IH. intros y Hy. apply H. now right.
Qed.

Lemma checkFamilyFriendly_blocks (text : string) :
  (exists k, In k inappropriateKeywords /\
             Js.includes (Js.toLowerCase text) k = true) ->
  exists msg,
    checkFamilyFriendly text = Throw (JsError msg) /\
    forall k, In k inappropriateKeywords ->
              Js.includes (Js.toLowerCase text) k = true ->
              Js.includes msg k = true.
Proof.
  intros (k0 & Hin0 & Hk0). unfold checkFamilyFriendly.
  assert (F : In k0 (foundInappropriate text))
    by (apply filter_In; now split).
  destruct (foundInappropriate text) as [|x l] eqn:E; [destruct F |].
  rewrite <- E. replace (0 <? List.length (foundInappropriate text))%nat with true
    by (rewrite E; reflexivity).
  eexists. split; [reflexivity |]. intros k Hin Hk.
  apply includes_infix. apply infix_prepend. apply infix_concat.
  apply filter_In. now split.
Qed.

Lemma checkFamilyFriendly_passes (text : string) :
  (forall k, In k inappropriateKeywords ->
             Js.includes (Js.toLowerCase text) k = false) ->
  checkFamilyFriendly text = Ok true.
Proof.
  intros H.
  assert (E : foundInappropriate text = [])
    by (unfold foundInappropriate; apply filter_none; exact H).
  unfold checkFamilyFriendly. now rewrite E.
Qed.

Lemma refine_try_blocked (w : world) (userInput customizations options : value)
    (y : string) (v : validatedCustomizations) (e : js_error) :
  sanitizeText userInput = Ok y ->
  validateCustomizations customizations = Ok v ->
  checkFamilyFriendly y = Throw e ->
  refine_try w userInput customizations options = Throw e.
Proof.
  intros Hy Hv Hc. unfold refine_try, bind. now rewrite Hy, Hv, Hc.
Qed.

(** C8.  [checkFamilyFriendly] looks for the block-list terms in the
    lower-cased text, so the verdict depends on the text up to letter case;
    when some term is present it throws an error whose message contains
    every term that is present, and when none is present it returns [true].
    In [refinePrompt] a string prompt containing [knife] in any letter case
    gives [success = false], and the recorded error names [knife] whenever
    the prompt and the customizations pass the two earlier checks. *)
Theorem checkFamilyFriendly_names_matches :
  (forall text,
     (exists k, In k inappropriateKeywords /\
                Js.includes (Js.toLowerCase text) k = true) ->
     exists msg,
       checkFamilyFriendly text = Throw (JsError msg) /\
       forall k, In k inappropriateKeywords ->
                 Js.includes (Js.toLowerCase text) k = true ->
                 Js.includes msg k = true)
  /\ (forall text,
        (forall k, In k inappropriateKeywords ->
                   Js.includes (Js.toLowerCase text) k = false) ->
        checkFamilyFriendly text = Ok true)
  /\ (forall t1 t2,
        Js.toLowerCase t1 = Js.toLowerCase t2 ->
        checkFamilyFriendly t1 = checkFamilyFriendly t2)
  /\ (forall w s customizations options,
        Js.includes (Js.toLowerCase s) "knife" = true ->
        exists r,
          refinePrompt w (VStr s) customizations options = Ok r /\
          success r = false /\
          ((exists y, sanitizeText (VStr s) = Ok y) ->
           (exists v, validateCustomizations (default_object customizations) = Ok v) ->
           exists msg, error r = Some msg /\ Js.includes msg "knife" = true)).
Proof.
  split; [exact checkFamilyFriendly_blocks |].
  split; [exact checkFamilyFriendly_passes |].
  split.
  - intros t1 t2 E. unfold checkFamilyFriendly, foundInappropriate. now rewrite E.
  - intros w s c o K.
    assert (B : forall y, sanitizeText (VStr s) = Ok y ->
                exists msg, checkFamilyFriendly y = Throw (JsError msg)
                            /\ Js.includes msg "knife" = true).
    { intros y Hy. apply sanitizeText_accepts in Hy as [-> _].
      assert (Kc : Js.includes (Js.toLowerCase (cleaned s)) "knife" = true)
        by (apply cleaned_keeps_keyword; [reflexivity | exact K]).
      assert (Kin : In "knife" inappropriateKeywords) by (simpl; tauto).
      destruct (checkFamilyFriendly_blocks (cleaned s)) as (msg & E & N);
        [now exists "knife" |].
      exists msg. split; [exact E | now apply N]. }
    unfold refinePrompt, try_catch.
    destruct (refine_try w (VStr s) (default_object c) (default_object o))
      as [r | e] eqn:T.
    + apply refine_try_Ok in T as (y & v & g & Hy & _ & [b Hb] & _).
      destruct (B y Hy) as (msg & E & _). congruence.
    + rewrite refine_catch_text by reflexivity. eexists.
      split; [reflexivity |]. split; [reflexivity |].
      intros [y Hy] [v Hv]. destruct (B y Hy) as (msg & E & N).
      exists msg. split; [| exact N].
      rewrite (refine_try_blocked w _ _ (default_object o) y v _ Hy Hv E) in T.
      injection T as <-. reflexivity.
Qed.

Lemma checkFamilyFriendly_names_matches_witness :
  exists r,
    refinePrompt quiet (VStr "A big KNIFE") (VObj []) VUndefined = Ok r /\
    success r = false /\
    exists msg, error r = Some msg /\ Js.includes msg "knife" = true.
Proof.
  destruct (proj2 (proj2 (proj2 checkFamilyFriendly_names_matches))
              quiet "A big KNIFE" (VObj []) VUndefined eq_refl)
    as (r & E & S & N).
  exists r. split; [exact E |]. split; [exact S |].
  apply N; eexists; reflexivity.
Defined.

End Moderation.

(* ------------------------------------------------------------------ *)
(** ** refinePrompt *)

Section RefinePrompt.

(** C1 (amended).  For a prompt that is a string or absent, with any
    customizations and options, [refinePrompt] returns a result whose
    [refinedPrompt] is not empty: either the [try] block ran to its end and
    the result has [success = true], or it threw and the result has
    [success = false], method [fallback], the message of that error, and the
    string of [createFallbackPrompt].  That string is the hard-coded generic
    one exactly when building the fallback string itself throws; otherwise
    it starts with the trimmed raw prompt, or with the word [drawing] when
    the prompt is not a string. *)
Theorem refinePrompt_recovers (w : world)
    (userInput customizations options : value) :
  text_or_absent userInput = true ->
  exists r,
    refinePrompt w userInput customizations options = Ok r
    /\ refinedPrompt r <> ""
    /\ ((success r = true /\ error r = None /\
         refine_try w userInput (default_object customizations)
           (default_object options) = Ok r)
        \/
        (success r = false /\ method (meta r) = "fallback" /\
         refinedPrompt r = createFallbackPrompt userInput customizations /\
         exists e,
           refine_try w userInput (default_object customizations)
             (default_object options) = Throw e /\
           error r = Some (message e)))
    /\ (createFallbackPrompt userInput customizations = generic_prompt <->
        exists e, build_fallback userInput (default_object customizations) = Throw e)
    /\ (forall text,
          build_fallback userInput (default_object customizations) = Ok text ->
          exists rest,
            text = "black-and-white line art of " ++ fallback_subject userInput
                   ++ ", " ++ rest).
Proof.
  intros T. unfold refinePrompt, try_catch.
  destruct (refine_try w userInput (default_object customizations)
              (default_object options)) as [r | e] eqn:E.
  - exists r. split; [reflexivity |].
    destruct (refine_try_Ok _ _ _ _ _ E) as (y & v & g & _ & _ & _ & _ & R).
    split; [| split; [left | split]].
    + rewrite R. cbn [refinedPrompt].
      destruct (truthy g && negb (is_development w)).
      * apply gptRefinement_nonempty.
      * apply applyColoringBookSpecs_nonempty.
    + rewrite R. now cbn [success error].
    + apply createFallbackPrompt_generic.
    + apply build_fallback_head.
  - rewrite (refine_catch_text _ _ e T). eexists. split; [reflexivity |].
    cbn [refinedPrompt success error meta method].
    rewrite createFallbackPrompt_default.
    split; [apply createFallbackPrompt_nonempty |].
    split; [right; repeat split; now exists e |].
    split; [apply createFallbackPrompt_generic | apply build_fallback_head].
Qed.

Lemma refinePrompt_recovers_witness :
  exists r,
    refinePrompt quiet VNull (VObj []) VUndefined = Ok r
    /\ refinedPrompt r <> "".
Proof.
  destruct (refinePrompt_recovers quiet VNull (VObj []) VUndefined eq_refl)
    as (r & E & N & _).
  exists r. split; [exact E | exact N].
Defined.

(** C1 as stated fails.  An empty prompt with empty customizations comes
    back with a fallback string built around the empty subject, not with
    the hard-coded generic string; and a numeric prompt makes the [catch]
    block itself throw. *)
Lemma refinePrompt_unusable_input :
  prompt_of (refinePrompt quiet (VStr "") (VObj []) (VObj []))
  = Some "black-and-white line art of , medium complexity, kids style, medium lines, with border, coloring book style, family-friendly, no shading, 300 DPI"
  /\ prompt_of (refinePrompt quiet (VStr "") (VObj []) (VObj []))
     <> Some generic_prompt
  /\ refinePrompt quiet (VNum 42) (VObj []) (VObj [])
     = Throw (JsTypeError "userInput?.substring is not a function").
Proof.
  split; [vm_compute; reflexivity |].
  split; [vm_compute; discriminate | vm_compute; reflexivity].
Qed.

(** C2 (the code's behaviour).  When the remote call fails on every request,
    the deployment is not in development mode and [options.useGPT] is
    truthy, a successful result carries the prompt of the template method
    and yet records the method [gpt-enhanced]. *)
Theorem remote_failure_recorded_as_gpt (w : world) (s : string)
    (customizations options : value) (r : result) :
  (forall request, completions_create w request = None) ->
  is_development w = false ->
  truthy (raw_field (default_object options) "useGPT") = true ->
  refinePrompt w (VStr s) customizations options = Ok r ->
  success r = true ->
  method (meta r) = "gpt-enhanced" /\
  exists y cfg,
    sanitizeText (VStr s) = Ok y /\ appliedSettings r = Some cfg /\
    refinedPrompt r = templateRefinement y cfg.
Proof.
  intros Remote Dev Use. unfold refinePrompt, try_catch.
  destruct (refine_try w (VStr s) (default_object customizations)
              (default_object options)) as [r0 | e] eqn:E.
  - intros [= <-] _.
    destruct (refine_try_Ok _ _ _ _ _ E) as (y & v & g & Hy & _ & _ & Hg & R).
    unfold raw_field in Use. rewrite Hg in Use.
    rewrite Use, Dev in R. cbn [andb negb] in R. rewrite R.
    cbn [meta method appliedSettings refinedPrompt].
    split; [reflexivity |]. exists y, (with_defaults v).
    repeat split; try assumption.
    unfold gptRefinement. now rewrite Remote.
  - rewrite refine_catch_text by reflexivity. intros [= <-]. discriminate.
Qed.

Lemma remote_failure_recorded_as_gpt_witness :
  match refinePrompt production_offline (VStr "a cute dog") (VObj []) with_gpt with
  | Ok r => method (meta r) = "gpt-enhanced"
            /\ refinedPrompt r = templateRefinement "a cute dog" default_settings
  | Throw _ => False
  end.
Proof.
  destruct (refinePrompt production_offline (VStr "a cute dog") (VObj []) with_gpt)
    as [r | e] eqn:E.
  - assert (S : success r = true)
      by (vm_compute in E; injection E as <-; reflexivity).
    destruct (remote_failure_recorded_as_gpt production_offline "a cute dog"
                (VObj []) with_gpt r (fun _ => eq_refl) eq_refl eq_refl E S)
      as (M & _).
    split; [exact M |]. vm_compute in E. injection E as <-.
    vm_compute. reflexivity.
  - vm_compute in E. discriminate.
Defined.

Lemma textual_or_else (customizations : value) (name dflt : string) :
  textual customizations name ->
  or_else (raw_field customizations name) (VStr dflt)
  = VStr (raw_or customizations name dflt).
Proof.
  unfold raw_or. intros [-> | [s ->]]; [reflexivity |].
  unfold or_else. simpl. now destruct (s =? "").
Qed.

Lemma build_fallback_textual (s : string) (props : list (string * value)) :
  let c := VObj props in
  textual c "complexity" -> textual c "ageGroup" ->
  textual c "lineThickness" -> textual c "border" ->
  build_fallback (VStr s) c =
  Ok ("black-and-white line art of " ++ Js.trim s ++ ", "
      ++ raw_or c "complexity" "medium" ++ " complexity, "
      ++ raw_or c "ageGroup" "kids" ++ " style, "
      ++ raw_or c "lineThickness" "medium" ++ " lines, "
      ++ (if raw_or c "border" "with" =? "with" then "with border" else "no border")
      ++ ", coloring book style, family-friendly, no shading, 300 DPI").
Proof.
  intros c Tc Ta Tl Tb. unfold build_fallback, bind.
  assert (G : forall name, get_field c name = Ok (raw_field c name)).
  { intros name. unfold raw_field, c. simpl. now destruct (lookup name props). }
  rewrite !G.
  rewrite (textual_or_else c "complexity" "medium" Tc),
          (textual_or_else c "ageGroup" "kids" Ta),
          (textual_or_else c "lineThickness" "medium" Tl),
          (textual_or_else c "border" "with" Tb).
  reflexivity.
Qed.

Lemma validateCustomizations_throws_object (c : value) (e : js_error) :
  validateCustomizations c = Throw e -> exists props, c = VObj props.
Proof.
  intros H. destruct c as [| | b | n | s | items | props];
    try (rewrite validateCustomizations_not_object in H by discriminate;
         discriminate).
  now exists props.
Qed.

Lemma refine_try_invalid (w : world) (userInput customizations options : value)
    (y : string) (e : js_error) :
  sanitizeText userInput = Ok y ->
  validateCustomizations customizations = Throw e ->
  refine_try w userInput customizations options = Throw e.
Proof.
  intros Hy Hv. unfold refine_try, bind. now rewrite Hy, Hv.
Qed.

(** C3 (amended).  With a string prompt and customizations that fail
    validation, [refinePrompt] returns [success = false] and a fallback
    string built from the raw customizations: each style field holding a
    non-empty string is used as given, in or out of its set, and the default
    is used only for a field that is absent or empty.  The error recorded is
    the validation error whenever the prompt itself is accepted. *)
Theorem refinePrompt_invalid_preference (w : world) (s : string)
    (customizations options : value) (e : js_error) :
  validateCustomizations customizations = Throw e ->
  textual customizations "complexity" -> textual customizations "ageGroup" ->
  textual customizations "lineThickness" -> textual customizations "border" ->
  exists r,
    refinePrompt w (VStr s) customizations options = Ok r
    /\ success r = false
    /\ refinedPrompt r =
       "black-and-white line art of " ++ Js.trim s ++ ", "
       ++ raw_or customizations "complexity" "medium" ++ " complexity, "
       ++ raw_or customizations "ageGroup" "kids" ++ " style, "
       ++ raw_or customizations "lineThickness" "medium" ++ " lines, "
       ++ (if raw_or customizations "border" "with" =? "with"
           then "with border" else "no border")
       ++ ", coloring book style, family-friendly, no shading, 300 DPI"
    /\ ((exists y, sanitizeText (VStr s) = Ok y) -> error r = Some (message e)).
Proof.
  intros V Tc Ta Tl Tb.
  destruct (validateCustomizations_throws_object _ _ V) as [props ->].
  unfold refinePrompt, try_catch. cbn [default_object].
  destruct (refine_try w (VStr s) (VObj props) (default_object options))
    as [r | e'] eqn:E.
  - apply refine_try_Ok in E as (y & v & g & _ & Hv & _). congruence.
  - rewrite refine_catch_text by reflexivity. eexists.
    split; [reflexivity |]. cbn [success refinedPrompt error].
    split; [reflexivity |]. split.
    + unfold createFallbackPrompt. cbn [default_object].
      now rewrite (build_fallback_textual s props Tc Ta Tl Tb).
    + intros [y Hy].
      rewrite (refine_try_invalid w _ _ (default_object options) y e Hy V) in E.
      now injection E as <-.
Qed.

Lemma refinePrompt_invalid_preference_witness :
  exists r,
    refinePrompt quiet (VStr "a cute dog") extreme VUndefined = Ok r
    /\ success r = false
    /\ refinedPrompt r =
       "black-and-white line art of a cute dog, extreme complexity, kids style, medium lines, with border, coloring book style, family-friendly, no shading, 300 DPI"
    /\ error r = Some "Invalid complexity level".
Proof.
  destruct (refinePrompt_invalid_preference quiet "a cute dog" extreme VUndefined
              (JsError "Invalid complexity level") eq_refl
              (or_intror (ex_intro _ "extreme" eq_refl))
              (or_introl eq_refl) (or_introl eq_refl) (or_introl eq_refl))
    as (r & E & S & P & M).
  exists r. split; [exact E |]. split; [exact S |].
  split; [exact P |]. apply M. now exists "a cute dog".
Defined.

(** C3 as stated fails: with [complexity: "extreme"] the fallback string
    says [extreme complexity], where the documented default would give
    [medium complexity]. *)
Lemma refinePrompt_keeps_invalid_preference :
  prompt_of (refinePrompt quiet (VStr "a cute dog") extreme VUndefined)
  = Some "black-and-white line art of a cute dog, extreme complexity, kids style, medium lines, with border, coloring book style, family-friendly, no shading, 300 DPI"
  /\ spec_fallback_prompt "a cute dog" extreme
     = "black-and-white line art of a cute dog, medium complexity, kids style, medium lines, with border, coloring book style, family-friendly, no shading, 300 DPI"
  /\ prompt_of (refinePrompt quiet (VStr "a cute dog") extreme VUndefined)
     <> Some (spec_fallback_prompt "a cute dog" extreme).
Proof.
  split; [vm_compute; reflexivity |].
  split; [vm_compute; reflexivity | vm_compute; discriminate].
Qed.

(** C7.  [refinePrompt("a cute dog", {})] succeeds by the template method,
    detects [domesticAnimals], applies the default settings, and its prompt
    contains [dog] and ends with the seven style clauses in their fixed
    order, joined by a comma and a space; with settings taken from the
    enumerated sets every template-path prompt ends that way. *)
Theorem refinePrompt_cute_dog (w : world) :
  exists r,
    refinePrompt w (VStr "a cute dog") (VObj []) VUndefined = Ok r
    /\ success r = true
    /\ detectedCategory r = Some "domesticAnimals"
    /\ appliedSettings r = Some default_settings
    /\ method (meta r) = "template-based"
    /\ Js.includes (refinedPrompt r) "dog" = true
    /\ (exists front,
          refinedPrompt r = front ++ ", " ++ Js.join ", " style_clauses)
    /\ Js.join ", " style_clauses
       = "coloring book style, family-friendly content, no shading or color fills, clear distinct outlines, high contrast black lines on white background, 300 DPI print quality, suitable for coloring with crayons, markers, or colored pencils"
    /\ (forall input cfg, valid_config cfg -> exists front,
          templateRefinement input cfg
          = front ++ ", " ++ Js.join ", " style_clauses).
Proof.
  exists {| success := true;
            refinedPrompt := templateRefinement "a cute dog" default_settings;
            originalInput := VStr "a cute dog";
            detectedCategory := Some "domesticAnimals";
            appliedSettings := Some default_settings;
            error := None;
            meta := {| method := "template-based"; sanitized := true;
                       familyFriendly := Some true |} |}.
  split; [vm_compute; reflexivity |].
  cbn [success detectedCategory appliedSettings meta method refinedPrompt].
  do 4 (split; [reflexivity |]).
  split; [vm_compute; reflexivity |].
  split; [apply applyColoringBookSpecs_tail |].
  split; [vm_compute; reflexivity |].
  intros input cfg _. apply applyColoringBookSpecs_tail.
Qed.

Lemma refinePrompt_cute_dog_witness :
  exists front,
    templateRefinement "a sleepy whale"
      {| complexity := "detailed"; ageGroup := "teens";
         lineThickness := "thick"; border := "without"; theme := None |}
    = front ++ ", " ++ Js.join ", " style_clauses.
Proof.
  destruct (refinePrompt_cute_dog quiet)
    as (r & _ & _ & _ & _ & _ & _ & _ & _ & T).
  apply T. unfold valid_config. simpl. tauto.
Defined.

End RefinePrompt.

(* ------------------------------------------------------------------ *)
(** ** Further properties of the sanitizer *)

Section SanitizerMore.

Lemma squeeze_empty (s : string) : squeeze s = "" -> s = "".
Proof.
  destruct s as [|c s]; [reflexivity |]. rewrite squeeze_cons.
  destruct (Js.is_space c); discriminate.
Qed.

Lemma remove_chars_empty (s : string) :
  remove_chars s = "" <-> all_chars is_harmful s = true.
Proof.
  induction s as [|c s IH]; simpl; [tauto |].
  destruct (is_harmful c); simpl; [exact IH |]. split; discriminate.
Qed.

Lemma cleaned_empty (s : string) :
  cleaned s = "" <-> all_chars is_harmful (Js.trim s) = true.
Proof.
  unfold cleaned.
  change (Js.replace_class is_harmful "" (Js.trim s)) with (strip (Js.trim s)).
  rewrite strip_remove_chars, <- remove_chars_empty. fold squeeze. split.
  - apply squeeze_empty.
  - now intros ->.
Qed.

(** X1.  A string of at most 500 characters is rejected exactly when, once
    trimmed, it consists of the five removed characters only (the empty
    and the all-whitespace strings included); cleaning never lengthens the
    text, so such a string is never rejected for its length. *)
Theorem sanitizeText_rejects_short (s : string) :
  String.length s <= 500 ->
  ((exists e, sanitizeText (VStr s) = Throw e) <->
   all_chars is_harmful (Js.trim s) = true)
  /\ String.length (cleaned s) <= String.length s.
Proof.
  intros L.
  assert (B : String.length (cleaned s) <= String.length s).
  { pose proof (cleaned_length s). pose proof (trim_length s). lia. }
  split; [| exact B].
  rewrite outcome_cases, <- cleaned_empty. split.
  - intros H. destruct (cleaned s) as [|c t] eqn:E; [reflexivity |].
    exfalso. apply H. exists (cleaned s). apply sanitizeText_accepts.
    rewrite E in *. simpl in *. split; [reflexivity | lia].
  - intros E [y H]. apply sanitizeText_accepts in H as [_ H].
    rewrite E in H. simpl in H. lia.
Qed.

Lemma sanitizeText_rejects_short_witness :
  (exists e, sanitizeText (VStr " <'> ") = Throw e)
  /\ exists y, sanitizeText (VStr "< >") = Ok y.
Proof.
  split.
  - apply (proj1 (sanitizeText_rejects_short " <'> " ltac:(simpl; lia))).
    reflexivity.
  - exists " ". reflexivity.
Defined.

Lemma single_spaced_no_double (l r : string) :
  single_spaced (l ++ "  " ++ r) = false.
Proof.
  induction l as [|c l IH]; [reflexivity |].
  change (single_spaced (String c l ++ "  " ++ r))
    with ((if Js.is_space c
           then Ascii.eqb c " " && negb (starts_with_space (l ++ "  " ++ r))
           else true) && single_spaced (l ++ "  " ++ r)).
  rewrite IH. apply andb_false_r.
Qed.

Lemma single_spaced_plain (s : string) :
  all_chars not_harmful s = true -> single_spaced s = true ->
  all_chars plain_char s = true.
Proof.
  induction s as [|c s IH]; [reflexivity |]. simpl. intros H S.
  apply andb_true_iff in H as [Hc Hs]. apply andb_true_iff in S as [Sc Ss].
  rewrite (IH Hs Ss), andb_true_r. unfold plain_char. rewrite Hc. simpl.
  destruct (Js.is_space c); [| reflexivity].
  now apply andb_true_iff in Sc as [-> _].
Qed.

(** X2.  An accepted text comes back with none of the five removed
    characters, with no whitespace other than single spaces (no tab, no line
    break, no two spaces in a row), and no longer than it was. *)
Theorem sanitizeText_output_shape (input : value) (y : string) :
  sanitizeText input = Ok y ->
  all_chars plain_char y = true
  /\ ~ infix_of "  " y
  /\ exists s, input = VStr s /\ String.length y <= String.length s.
Proof.
  intros H.
  destruct input as [| | b | n | s | items | props];
    try (rewrite sanitizeText_not_string in H by discriminate; discriminate).
  apply sanitizeText_accepts in H as [-> _].
  destruct (cleaned_shape s) as [Hh Hs].
  split; [now apply single_spaced_plain |]. split.
  - intros (l & r & E). rewrite E, single_spaced_no_double in Hs. discriminate.
  - exists s. split; [reflexivity |].
    pose proof (cleaned_length s). pose proof (trim_length s). lia.
Qed.

Lemma sanitizeText_output_shape_witness :
  all_chars plain_char "a b c" = true /\ ~ infix_of "  " "a b c".
Proof.
  destruct (sanitizeText_output_shape
              (VStr (" a" ++ String "009"%char (String "010"%char "<b>  c ")))
              "a b c" eq_refl) as (P & D & _).
  split; [exact P | exact D].
Defined.

End SanitizerMore.

(* ------------------------------------------------------------------ *)
(** ** Sanitizing does not hide a blocked term *)

Section ModerationAfterCleaning.

Lemma is_space_lower_char (c : ascii) :
  Js.is_space (Js.lower_char c) = Js.is_space c.
Proof. destruct c as [[] [] [] [] [] [] [] []]; reflexivity. Qed.

Lemma is_blank_lower_char (c : ascii) :
  Ascii.eqb (Js.lower_char c) " " = Ascii.eqb c " ".
Proof. destruct c as [[] [] [] [] [] [] [] []]; reflexivity. Qed.

Lemma not_harmful_lower_char (c : ascii) :
  not_harmful (Js.lower_char c) = not_harmful c.
Proof. destruct c as [[] [] [] [] [] [] [] []]; reflexivity. Qed.

Lemma starts_with_space_lower (s : string) :
  starts_with_space (Js.toLowerCase s) = starts_with_space s.
Proof. destruct s; [reflexivity | apply is_space_lower_char]. Qed.

Lemma ends_with_space_lower (s : string) :
  ends_with_space (Js.toLowerCase s) = ends_with_space s.
Proof.
  induction s as [|c s IH]; [reflexivity |].
  change (Js.toLowerCase (String c s))
    with (String (Js.lower_char c) (Js.toLowerCase s)).
  rewrite !ends_with_space_cons, IH, is_space_lower_char. now destruct s.
Qed.

Lemma single_spaced_lower (s : string) :
  single_spaced (Js.toLowerCase s) = single_spaced s.
Proof.
  induction s as [|c s IH]; [reflexivity |]. simpl.
  now rewrite IH, is_space_lower_char, is_blank_lower_char,
    starts_with_space_lower.
Qed.

Lemma not_harmful_lower (s : string) :
  all_chars not_harmful (Js.toLowerCase s) = all_chars not_harmful s.
Proof.
  induction s as [|c s IH]; [reflexivity |]. simpl.
  now rewrite IH, not_harmful_lower_char.
Qed.

Lemma tidy_lower (m : string) : tidy (Js.toLowerCase m) = tidy m.
Proof.
  unfold tidy, trimmed.
  rewrite starts_with_space_lower, ends_with_space_lower, single_spaced_lower,
    not_harmful_lower.
  now destruct m.
Qed.

Lemma tidy_parts (m : string) :
  tidy m = true ->
  m <> "" /\ starts_with_space m = false /\ ends_with_space m = false
  /\ single_spaced m = true /\ all_chars not_harmful m = true.
Proof.
  unfold tidy, trimmed. intros H.
  apply andb_true_iff in H as [H Hh]. apply andb_true_iff in H as [H Hs].
  apply andb_true_iff in H as [Hn Ht]. apply andb_true_iff in Ht as [T1 T2].
  apply negb_true_iff in Hn, T1, T2. apply String.eqb_neq in Hn.
  now repeat split.
Qed.

Lemma starts_with_space_append (m r : string) :
  m <> "" -> starts_with_space (m ++ r) = starts_with_space m.
Proof. destruct m; [congruence | reflexivity]. Qed.

Lemma trimEnd_tail (m r : string) :
  m <> "" -> ends_with_space m = false ->
  Js.trimEnd (m ++ r) = m ++ Js.trimEnd r.
Proof.
  induction m as [|c m IH]; [congruence |]. intros _.
  rewrite ends_with_space_cons.
  change (String c m ++ r) with (String c (m ++ r)).
  destruct m as [|a t].
  - intros Hc. apply (trimEnd_cons_unspaced c r Hc).
  - intros He. rewrite trimEnd_cons_nonempty; rewrite IH by (discriminate || exact He);
      [reflexivity | discriminate].
Qed.

Lemma squeeze_phrase (m r : string) :
  single_spaced m = true -> ends_with_space m = false ->
  squeeze (m ++ r) = m ++ squeeze r.
Proof.
  induction m as [|c m IH]; [reflexivity |]. simpl single_spaced.
  rewrite ends_with_space_cons. intros S E.
  apply andb_true_iff in S as [Sc Ss].
  change (String c m ++ r) with (String c (m ++ r)).
  rewrite squeeze_cons. destruct (Js.is_space c) eqn:Hc.
  - apply andb_true_iff in Sc as [Sb Sn].
    apply Ascii.eqb_eq in Sb. apply negb_true_iff in Sn. subst c.
    destruct m as [|a t] eqn:Em; [discriminate |]. rewrite <- Em in *.
    assert (N : m <> "") by (subst m; discriminate).
    rewrite squeeze_in_unspaced
      by (now rewrite starts_with_space_append).
    now rewrite (IH Ss E).
  - destruct m as [|a t] eqn:Em; [reflexivity |]. rewrite <- Em in *.
    now rewrite (IH Ss E).
Qed.

(** A tidy phrase inside a text is still inside the cleaned text. *)
Lemma cleaned_keeps_tidy (m s : string) :
  tidy m = true -> infix_of m s -> infix_of m (cleaned s).
Proof.
  intros T (l & r & ->).
  destruct (tidy_parts m T) as (N & T1 & T2 & Ss & Hh).
  unfold cleaned. fold (strip (Js.trim (l ++ m ++ r))).
  fold (squeeze (strip (Js.trim (l ++ m ++ r)))).
  assert (I1 : infix_of m (Js.trim (l ++ m ++ r))).
  { unfold Js.trim.
    destruct (trimStart_before l (m ++ r)) as [l' ->];
      [now rewrite starts_with_space_append |].
    rewrite trimEnd_after; rewrite (trimEnd_tail m r N T2).
    - apply infix_refl_app.
    - destruct m; [congruence | discriminate]. }
  destruct (strip_keeps m _ Hh I1) as (l2 & r2 & ->).
  destruct (squeeze_before l2 (m ++ r2)) as [[l3 ->] _];
    [now rewrite starts_with_space_append |].
  rewrite (squeeze_phrase m r2 Ss T2). apply infix_refl_app.
Qed.

Lemma cleaned_keeps_phrase (k s : string) :
  tidy k = true ->
  Js.includes (Js.toLowerCase s) k = true ->
  Js.includes (Js.toLowerCase (cleaned s)) k = true.
Proof.
  intros T I.
  apply includes_infix in I as (L & R & E).
  apply toLowerCase_split in E as (l & mr & -> & <- & E).
  apply toLowerCase_split in E as (m & r & -> & Em & <-).
  rewrite <- Em, tidy_lower in T.
  destruct (cleaned_keeps_tidy m _ T (infix_refl_app l m r)) as (l' & r' & ->).
  apply includes_infix. rewrite <- Em, !toLowerCase_append.
  apply infix_refl_app.
Qed.

Lemma inappropriateKeywords_tidy (k : string) :
  In k inappropriateKeywords -> tidy k = true.
Proof.
  assert (F : forallb tidy inappropriateKeywords = true)
    by (vm_compute; reflexivity).
  rewrite forallb_forall in F. apply F.
Qed.

(** X3.  Cleaning never hides a blocked term: when the lower-cased raw
    prompt contains a term of the block-list, so does the lower-cased
    sanitized prompt, [checkFamilyFriendly] rejects it with a message naming
    the term, and [refinePrompt] answers [success = false] whatever the
    customizations and options are. *)
Theorem blocked_term_survives_cleaning (s k : string) :
  In k inappropriateKeywords ->
  Js.includes (Js.toLowerCase s) k = true ->
  (forall y, sanitizeText (VStr s) = Ok y ->
     Js.includes (Js.toLowerCase y) k = true /\
     exists msg, checkFamilyFriendly y = Throw (JsError msg)
                 /\ Js.includes msg k = true)
  /\ (forall w customizations options,
        exists r, refinePrompt w (VStr s) customizations options = Ok r
                  /\ success r = false /\ method (meta r) = "fallback").
Proof.
  intros Kin K.
  assert (B : forall y, sanitizeText (VStr s) = Ok y ->
     Js.includes (Js.toLowerCase y) k = true /\
     exists msg, checkFamilyFriendly y = Throw (JsError msg)
                 /\ Js.includes msg k = true).
  { intros y Hy. apply sanitizeText_accepts in Hy as [-> _].
    assert (Kc : Js.includes (Js.toLowerCase (cleaned s)) k = true)
      by (apply cleaned_keeps_phrase;
          [now apply inappropriateKeywords_tidy | exact K]).
    split; [exact Kc |].
    destruct (checkFamilyFriendly_blocks (cleaned s)) as (msg & E & N);
      [now exists k |].
    exists msg. split; [exact E | now apply N]. }
  split; [exact B |]. intros w c o.
  unfold refinePrompt, try_catch.
  destruct (refine_try w (VStr s) (default_object c) (default_object o))
    as [r | e] eqn:T.
  - apply refine_try_Ok in T as (y & v & g & Hy & _ & [b Hb] & _).
    destruct (B y Hy) as (_ & msg & E & _). congruence.
  - rewrite refine_catch_text by reflexivity. eexists.
    split; [reflexivity |]. split; reflexivity.
Qed.

Lemma blocked_term_survives_cleaning_witness :
  exists r,
    refinePrompt quiet (VStr "  <DARK Magic>   show ") (VObj []) VUndefined = Ok r
    /\ success r = false /\ method (meta r) = "fallback".
Proof.
  apply (proj2 (blocked_term_survives_cleaning "  <DARK Magic>   show "
                  "dark magic" ltac:(simpl; tauto) eq_refl)).
Defined.

End ModerationAfterCleaning.

(* ------------------------------------------------------------------ *)
(** ** What a result of refinePrompt guarantees *)

Section ResultInvariants.

Lemma survives_in (c : value) (name : string) (allowed : list string) (s : string) :
  survives c name allowed = Some s -> In s allowed /\ s <> "".
Proof.
  unfold survives. destruct (raw_field c name) as [| | b | n | t | items | props];
    simpl; try discriminate;
    try (rewrite andb_false_r; discriminate).
  destruct (negb (t =? "")) eqn:N; simpl; [| discriminate].
  destruct (existsb (String.eqb t) allowed) eqn:E; [| discriminate].
  intros [= <-]. split.
  - apply existsb_exists in E as (x & Hx & Ex).
    apply String.eqb_eq in Ex. now subst x.
  - apply negb_true_iff in N. now apply String.eqb_neq.
Qed.

Lemma opt_or_in (o : option string) (dflt : string) (allowed : list string) :
  (forall s, o = Some s -> In s allowed /\ s <> "") -> In dflt allowed ->
  In (opt_or o dflt) allowed.
Proof.
  intros H D. destruct o as [s |]; simpl; [| exact D].
  destruct (H s eq_refl) as [Hin Hn].
  apply String.eqb_neq in Hn. now rewrite Hn.
Qed.

Lemma validated_fields (c : value) (v : validatedCustomizations) :
  validateCustomizations c = Ok v ->
  v = {| vc_complexity := survives c "complexity" complexity_levels;
         vc_ageGroup := survives c "ageGroup" age_groups;
         vc_lineThickness := survives c "lineThickness" line_thicknesses;
         vc_border := survives c "border" border_options;
         vc_theme := survives c "theme" validThemes |}.
Proof.
  intros H. destruct c as [| | b | n | s | items | props];
    try (rewrite validateCustomizations_not_object in H by discriminate;
         now injection H as <-).
  rewrite validateCustomizations_object in H.
  destruct (existsb _ recognized); [discriminate | now injection H as <-].
Qed.

Lemma with_defaults_valid (c : value) (v : validatedCustomizations) :
  validateCustomizations c = Ok v -> valid_config (with_defaults v).
Proof.
  intros H. rewrite (validated_fields c v H). unfold valid_config, with_defaults.
  cbn [complexity ageGroup lineThickness border theme
       vc_complexity vc_ageGroup vc_lineThickness vc_border vc_theme].
  repeat split;
    try (apply opt_or_in; [intros s; apply survives_in | simpl; tauto]).
  destruct (survives c "theme" validThemes) as [t |] eqn:E; [| exact I].
  destruct (survives_in _ _ _ _ E) as [Hin Hn].
  apply String.eqb_neq in Hn. now rewrite Hn.
Qed.

Lemma checkFamilyFriendly_Ok (y : string) (b : bool) :
  checkFamilyFriendly y = Ok b ->
  forall k, In k inappropriateKeywords ->
            Js.includes (Js.toLowerCase y) k = false.
Proof.
  intros H k Hin.
  destruct (Js.includes (Js.toLowerCase y) k) eqn:E; [| reflexivity].
  destruct (checkFamilyFriendly_blocks y) as (msg & Hm & _);
    [now exists k | congruence].
Qed.

(** X4.  A result with [success = true] reports the sanitized prompt as
    [originalInput], free of every block-list term; its [appliedSettings]
    take every value from the enumerated sets; its [detectedCategory] is the
    classifier's answer for the sanitized prompt; and its method is one of
    the two generation paths. *)
Theorem success_result_invariants (w : world)
    (userInput customizations options : value) (r : result) :
  refinePrompt w userInput customizations options = Ok r ->
  success r = true ->
  exists y cfg,
    sanitizeText userInput = Ok y
    /\ originalInput r = VStr y
    /\ (forall k, In k inappropriateKeywords ->
                  Js.includes (Js.toLowerCase y) k = false)
    /\ appliedSettings r = Some cfg /\ valid_config cfg
    /\ detectedCategory r = Some (detectSubjectCategory y)
    /\ In (detectSubjectCategory y) ("general" :: map fst subjectPatterns)
    /\ error r = None
    /\ (method (meta r) = "template-based" \/ method (meta r) = "gpt-enhanced").
Proof.
  unfold refinePrompt, try_catch.
  destruct (refine_try w userInput (default_object customizations)
              (default_object options)) as [r0 | e] eqn:E.
  - intros [= <-] _.
    destruct (refine_try_Ok _ _ _ _ _ E)
      as (y & v & g & Hy & Hv & [b Hb] & _ & R).
    exists y, (with_defaults v). rewrite R.
    cbn [originalInput appliedSettings detectedCategory error meta method].
    split; [exact Hy |]. split; [reflexivity |].
    split; [exact (checkFamilyFriendly_Ok y b Hb) |].
    split; [reflexivity |].
    split; [exact (with_defaults_valid _ _ Hv) |].
    split; [reflexivity |].
    split; [apply bestMatch_named |].
    split; [reflexivity |].
    destruct (truthy g && negb (is_development w)); [now right | now left].
  - destruct (text_or_absent userInput) eqn:T.
    + rewrite refine_catch_text by exact T. intros [= <-]. discriminate.
    + destruct userInput; try discriminate; simpl; discriminate.
Qed.

Lemma success_result_invariants_witness :
  match refinePrompt quiet (VStr "a <big> Castle")
          (VObj [("ageGroup", VStr "teens"); ("theme", VStr "fantasy")]) VNull with
  | Ok r => success r = false
  | Throw _ => False
  end
  /\ match refinePrompt quiet (VStr "a <big> Castle")
             (VObj [("ageGroup", VStr "teens"); ("theme", VStr "fantasy")])
             VUndefined with
     | Ok r => exists cfg, appliedSettings r = Some cfg /\ valid_config cfg
     | Throw _ => False
     end.
Proof.
  split; [vm_compute; reflexivity |].
  destruct (refinePrompt quiet (VStr "a <big> Castle")
              (VObj [("ageGroup", VStr "teens"); ("theme", VStr "fantasy")])
              VUndefined) as [r | e] eqn:E.
  - assert (S : success r = true)
      by (vm_compute in E; injection E as <-; reflexivity).
    destruct (success_result_invariants _ _ _ _ r E S)
      as (y & cfg & _ & _ & _ & A & V & _).
    exists cfg. split; [exact A | exact V].
  - vm_compute in E. discriminate.
Defined.

(** The [try] block does not look at the completion service unless the
    remote path is selected. *)
Lemma refine_try_local (w w' : world) (userInput customizations options : value) :
  is_development w' = is_development w ->
  truthy (raw_field options "useGPT") && negb (is_development w) = false ->
  refine_try w' userInput customizations options
  = refine_try w userInput customizations options.
Proof.
  intros D G. unfold refine_try, bind.
  destruct (sanitizeText userInput); [| reflexivity].
  destruct (validateCustomizations customizations); [| reflexivity].
  destruct (checkFamilyFriendly a); [| reflexivity].
  unfold raw_field in G.
  destruct (get_field options "useGPT") as [g |]; [| reflexivity].
  now rewrite D, G.
Qed.

Lemma method_gpt_iff (w : world) (userInput customizations options : value)
    (r : result) :
  refinePrompt w userInput customizations options = Ok r ->
  (method (meta r) = "gpt-enhanced" <->
   success r = true /\ gpt_selected w options = true).
Proof.
  unfold refinePrompt, try_catch, gpt_selected.
  destruct (refine_try w userInput (default_object customizations)
              (default_object options)) as [r0 | e] eqn:E.
  - intros [= <-].
    destruct (refine_try_Ok _ _ _ _ _ E) as (y & v & g & _ & _ & _ & Hg & R).
    unfold raw_field. rewrite Hg, R. cbn [meta method success].
    destruct (truthy g && negb (is_development w)).
    + split; [now split | reflexivity].
    + split; [discriminate | intros [_ H]; discriminate].
  - destruct (text_or_absent userInput) eqn:T.
    + rewrite refine_catch_text by exact T. intros [= <-].
      cbn [meta method success].
      split; [discriminate | intros [H _]; discriminate].
    + destruct userInput; try discriminate; simpl; discriminate.
Qed.

Lemma refinePrompt_local (w w' : world)
    (userInput customizations options : value) :
  gpt_selected w options = false -> NODE_ENV w' = NODE_ENV w ->
  refinePrompt w' userInput customizations options
  = refinePrompt w userInput customizations options.
Proof.
  intros G N. unfold refinePrompt.
  rewrite (refine_try_local w w'); [reflexivity | | exact G].
  unfold is_development. now rewrite N.
Qed.

(** X5.  The completion service is used only on request and outside
    development mode: a result says [gpt-enhanced] exactly when it is a
    success obtained with [options.useGPT] truthy and [NODE_ENV] different
    from [development]; in every other case the whole answer of
    [refinePrompt] is the same whatever the completion service would
    reply.  The route handlers, which pass no options, are such a case:
    their results never say [gpt-enhanced]. *)
Theorem gpt_only_on_request (w : world)
    (userInput customizations options : value) :
  (forall r, refinePrompt w userInput customizations options = Ok r ->
     (method (meta r) = "gpt-enhanced" <->
      success r = true /\ gpt_selected w options = true))
  /\ (gpt_selected w options = false ->
      forall w', NODE_ENV w' = NODE_ENV w ->
        refinePrompt w' userInput customizations options
        = refinePrompt w userInput customizations options)
  /\ (forall w', NODE_ENV w' = NODE_ENV w ->
        ApiServer.route_refine w' userInput customizations
        = ApiServer.route_refine w userInput customizations)
  /\ (forall r, ApiServer.route_refine w userInput customizations = Ok r ->
        method (meta r) <> "gpt-enhanced").
Proof.
  split; [apply method_gpt_iff |].
  split; [intros G w' N; now apply refinePrompt_local |].
  split.
  - intros w' N. now apply refinePrompt_local.
  - intros r H M. apply (method_gpt_iff _ _ _ _ _ H) in M as [_ G].
    discriminate.
Qed.

Lemma gpt_only_on_request_witness :
  refinePrompt {| NODE_ENV := Some "development";
                  completions_create := fun _ => Some "anything" |}
    (VStr "a cute dog") (VObj []) with_gpt
  = refinePrompt {| NODE_ENV := Some "development";
                    completions_create := fun _ => None |}
      (VStr "a cute dog") (VObj []) with_gpt.
Proof.
  apply (proj1 (proj2 (gpt_only_on_request
                  {| NODE_ENV := Some "development";
                     completions_create := fun _ => None |}
                  (VStr "a cute dog") (VObj []) with_gpt)));
    reflexivity.
Defined.

End ResultInvariants.

(* ------------------------------------------------------------------ *)
(** ** The instruction strings *)

Section InstructionStrings.

Lemma clauses_in_literal (lit : string) :
  forallb (Js.includes lit) safety_clauses = true ->
  forall k, In k safety_clauses -> infix_of k lit.
Proof.
  intros F k Hin. rewrite forallb_forall in F.
  apply includes_infix. now apply F.
Qed.

Lemma build_fallback_shape (input customizations : value) (text : string) :
  build_fallback input customizations = Ok text ->
  exists middle,
    text = "black-and-white line art of " ++ fallback_subject input ++ ", "
           ++ middle
           ++ ", coloring book style, family-friendly, no shading, 300 DPI".
Proof.
  unfold build_fallback, bind.
  destruct (get_field customizations "complexity"); [| discriminate].
  destruct (get_field customizations "ageGroup"); [| discriminate].
  destruct (get_field customizations "lineThickness"); [| discriminate].
  destruct (get_field customizations "border"); [| discriminate].
  destruct (to_string (or_else a _)) as [cs |]; [| discriminate].
  destruct (to_string (or_else a0 _)) as [ags |]; [| discriminate].
  destruct (to_string (or_else a1 _)) as [ls |]; [| discriminate].
  intros [= <-].
  exists (cs ++ " complexity, " ++ ags ++ " style, " ++ ls ++ " lines, "
          ++ match or_else a2 (VStr "with") with
             | VStr s => if s =? "with" then "with border" else "no border"
             | _ => "no border"
             end).
  now rewrite !append_assoc.
Qed.

Lemma createFallbackPrompt_clauses (input customizations : value) (k : string) :
  In k safety_clauses -> infix_of k (createFallbackPrompt input customizations).
Proof.
  intros Hin. unfold createFallbackPrompt.
  destruct (build_fallback _ _) as [text | e] eqn:E.
  - apply build_fallback_shape in E as [middle ->].
    revert k Hin. intros k Hin.
    assert (D : k = "black-and-white line art" \/
                infix_of k ", coloring book style, family-friendly, no shading, 300 DPI").
    { simpl in Hin. destruct Hin as [<- | Hin]; [now left | right].
      apply includes_infix.
      destruct Hin as [<- | [<- | [<- | [<- | []]]]]; reflexivity. }
    destruct D as [-> | D].
    + exists "", (" of " ++ fallback_subject input ++ ", " ++ middle
                  ++ ", coloring book style, family-friendly, no shading, 300 DPI").
      reflexivity.
    + now do 4 apply infix_prepend.
  - apply clauses_in_literal; [reflexivity | exact Hin].
Qed.

Lemma applyColoringBookSpecs_clauses (description : string) (cfg : config)
    (k : string) :
  In k safety_clauses -> infix_of k (applyColoringBookSpecs description cfg).
Proof.
  intros Hin.
  assert (D : k = "black-and-white line art" \/
              infix_of k (Js.join ", " style_clauses)).
  { simpl in Hin. destruct Hin as [<- | Hin]; [now left | right].
    apply includes_infix.
    destruct Hin as [<- | [<- | [<- | [<- | []]]]]; reflexivity. }
  destruct D as [-> | D].
  - assert (H : exists rest,
               applyColoringBookSpecs description cfg
               = "professional " ++ "black-and-white line art" ++ rest)
      by (eexists; reflexivity).
    destruct H as [rest ->]. now exists "professional ", rest.
  - destruct (applyColoringBookSpecs_tail description cfg) as [front ->].
    now do 2 apply infix_prepend.
Qed.

Lemma gptRefinement_clauses (w : world) (input : string) (cfg : config)
    (k : string) :
  In k safety_clauses -> infix_of k (gptRefinement w input cfg).
Proof.
  intros Hin. unfold gptRefinement.
  destruct (completions_create w _) as [content |].
  - apply infix_prepend. apply clauses_in_literal; [reflexivity | exact Hin].
  - now apply applyColoringBookSpecs_clauses.
Qed.

(** X6.  Whichever path produced it (template, completion service,
    fallback or the generic string), the instruction string of a returned
    result is not empty and contains the phrases [black-and-white line art],
    [coloring book], [family-friendly], [no shading] and [300 DPI]. *)
Theorem every_prompt_has_safety_clauses (w : world)
    (userInput customizations options : value) (r : result) :
  refinePrompt w userInput customizations options = Ok r ->
  refinedPrompt r <> "" /\
  forall k, In k safety_clauses -> infix_of k (refinedPrompt r).
Proof.
  unfold refinePrompt, try_catch.
  destruct (refine_try w userInput (default_object customizations)
              (default_object options)) as [r0 | e] eqn:E.
  - intros [= <-].
    destruct (refine_try_Ok _ _ _ _ _ E) as (y & v & g & _ & _ & _ & _ & R).
    rewrite R. cbn [refinedPrompt].
    destruct (truthy g && negb (is_development w)); split.
    + apply gptRefinement_nonempty.
    + intros k. apply gptRefinement_clauses.
    + apply applyColoringBookSpecs_nonempty.
    + intros k. apply applyColoringBookSpecs_clauses.
  - destruct (text_or_absent userInput) eqn:T.
    + rewrite refine_catch_text by exact T. intros [= <-].
      cbn [refinedPrompt]. split.
      * apply createFallbackPrompt_nonempty.
      * intros k. apply createFallbackPrompt_clauses.
    + destruct userInput; try discriminate; simpl; discriminate.
Qed.

Lemma every_prompt_has_safety_clauses_witness :
  match refinePrompt production_offline (VStr "a knife") VNull with_gpt with
  | Ok r => infix_of "family-friendly" (refinedPrompt r)
  | Throw _ => False
  end.
Proof.
  destruct (refinePrompt production_offline (VStr "a knife") VNull with_gpt)
    as [r | e] eqn:E.
  - apply (proj2 (every_prompt_has_safety_clauses _ _ _ _ r E)).
    simpl. tauto.
  - vm_compute in E. discriminate.
Defined.











End InstructionStrings.

(* ------------------------------------------------------------------ *)
(** ** More on the classifier *)

Section ClassifierMore.

Lemma score_positive (low : string) (patterns : list string) :
  0 < score low patterns ->
  exists phrase, In phrase patterns /\ infix_of phrase low.
Proof.
  unfold score. intros H.
  destruct (filter (fun pattern => Js.includes low pattern) patterns)
    as [|p l] eqn:E; [simpl in H; lia |].
  assert (F : In p (filter (fun pattern => Js.includes low pattern) patterns))
    by (rewrite E; now left).
  apply filter_In in F as [Hin Hp]. exists p. split; [exact Hin |].
  now apply includes_infix.
Qed.

(** X8.  The answer is [general] exactly when no phrase of any category
    occurs in the lower-cased input; otherwise the category returned has a
    phrase in the input and no category matches more phrases than it
    does. *)
Theorem detectSubjectCategory_best (input : string) :
  (detectSubjectCategory input = "general" <->
   forall category patterns phrase,
     In (category, patterns) subjectPatterns -> In phrase patterns ->
     ~ infix_of phrase (Js.toLowerCase input))
  /\ (detectSubjectCategory input <> "general" ->
      exists patterns phrase,
        In (detectSubjectCategory input, patterns) subjectPatterns
        /\ In phrase patterns /\ infix_of phrase (Js.toLowerCase input)
        /\ forall category' patterns',
             In (category', patterns') subjectPatterns ->
             score (Js.toLowerCase input) patterns'
             <= score (Js.toLowerCase input) patterns).
Proof.
  unfold detectSubjectCategory, detect_in.
  destruct (bestMatch_cases (Js.toLowerCase input) subjectPatterns)
    as [[B Z] | (i & [c ps] & N & B & Pos & _ & A)]; rewrite B;
    cbn [fst].
  - split; [split; [| reflexivity] | congruence].
    intros _ category patterns phrase Hc Hp I.
    specialize (Z _ Hc). unfold entry_score, score in Z. cbn [snd] in Z.
    assert (F : In phrase (filter (fun pattern =>
                  Js.includes (Js.toLowerCase input) pattern) patterns))
      by (apply filter_In; split; [exact Hp | now apply includes_infix]).
    destruct (filter _ patterns); [destruct F | discriminate].
  - pose proof (nth_error_In _ _ N) as Hin.
    unfold entry_score in Pos. cbn [snd] in Pos.
    destruct (score_positive _ _ Pos) as (phrase & Hp & I).
    split; [split |].
    + intros E. exfalso.
      apply (subjectPatterns_general_free (c, ps) Hin E).
    + intros Z. exfalso. exact (Z c ps phrase Hin Hp I).
    + intros _. exists ps, phrase. repeat split; try assumption.
      intros c' ps' H'. exact (A (c', ps') H').
Qed.

Lemma detectSubjectCategory_best_witness :
  exists patterns phrase,
    In (detectSubjectCategory "A shark near a Coral reef", patterns) subjectPatterns
    /\ In phrase patterns
    /\ infix_of phrase (Js.toLowerCase "A shark near a Coral reef").
Proof.
  destruct (proj2 (detectSubjectCategory_best "A shark near a Coral reef"))
    as (ps & phrase & H1 & H2 & H3 & _).
  - vm_compute. discriminate.
  - now exists ps, phrase.
Defined.

End ClassifierMore.

(* ------------------------------------------------------------------ *)
(** ** Keys, health and the route filter *)

Section ServerSide.

Lemma startsWith_sk_nonempty (k : string) :
  Js.startsWith k "sk-" = true -> (k =? "") = false.
Proof. destruct k; [discriminate | reflexivity]. Qed.

Lemma getApiKey_eq (key : option string) :
  getApiKey key =
  match key with
  | Some k => if Js.startsWith k "sk-" then k else mock_key
  | None => mock_key
  end
  /\ ApiServer.initializeOpenAI key = getApiKey key.
Proof.
  unfold getApiKey, hasRealKey, ApiServer.initializeOpenAI, mock_key.
  destruct key as [k |]; [| now split].
  destruct (Js.startsWith k "sk-") eqn:S.
  - rewrite (startsWith_sk_nonempty k S), andb_true_r. cbn [negb andb].
    destruct (String.eqb_spec k "sk-mock-key-for-testing") as [-> | N];
      now split.
  - rewrite andb_false_r. now split.
Qed.

(** X9.  The key handed to the OpenAI client always starts with [sk-]: it
    is the environment's key when that key starts with [sk-], and the mock
    key in every other case (variable unset, empty, or any other text);
    [getApiKey] and the server's [initializeOpenAI] choose the same key. *)
Theorem getApiKey_choice (key : option string) :
  Js.startsWith (getApiKey key) "sk-" = true
  /\ (forall k, key = Some k -> Js.startsWith k "sk-" = true ->
                getApiKey key = k)
  /\ ((forall k, key = Some k -> Js.startsWith k "sk-" = false) ->
      getApiKey key = mock_key)
  /\ ApiServer.initializeOpenAI key = getApiKey key.
Proof.
  destruct (getApiKey_eq key) as [E I].
  split; [| split; [| split; [| exact I]]].
  - rewrite E. destruct key as [k |]; [| reflexivity].
    destruct (Js.startsWith k "sk-") eqn:S; [exact S | reflexivity].
  - intros k -> S. now rewrite E, S.
  - intros H. rewrite E. destruct key as [k |]; [| reflexivity].
    now rewrite (H k eq_refl).
Qed.

Lemma getApiKey_choice_witness :
  getApiKey (Some "sk-proj-abc") = "sk-proj-abc"
  /\ getApiKey (Some "pk-123") = mock_key.
Proof.
  split.
  - apply (proj1 (proj2 (getApiKey_choice (Some "sk-proj-abc")))
             "sk-proj-abc" eq_refl eq_refl).
  - apply (proj1 (proj2 (proj2 (getApiKey_choice (Some "pk-123"))))).
    intros k [= <-]. reflexivity.
Defined.

(** X10.  [healthCheck] says [healthy] exactly in development mode or when
    the models request answers; in development mode the request is not
    looked at; the feature counts are the 15 categories and 16 template
    groups; and the flag [gptRefinement] agrees with the gate of
    [refinePrompt].  The [/api/health] body says [connected] exactly when,
    outside development mode, the request answered, and its own status is
    [ok] even when the refinement service is [unhealthy]. *)
Theorem healthCheck_status (w : world) (models_list : outcome (option nat)) :
  (status (healthCheck w models_list) = "healthy" <->
   is_development w = true \/ exists data, models_list = Ok data)
  /\ (is_development w = true ->
      forall other, healthCheck w other = healthCheck w models_list)
  /\ (forall f, healthFeatures (healthCheck w models_list) = Some f ->
        expandedPatterns f = 15 /\ templateCount f = 16
        /\ forall options,
             gptRefinementEnabled f
             && truthy (raw_field (default_object options) "useGPT")
             = gpt_selected w options)
  /\ (ApiServer.openai (ApiServer.api_health w models_list) = "connected" <->
      is_development w = false /\ exists data, models_list = Ok data)
  /\ ApiServer.overall (ApiServer.api_health w models_list) = "ok"
  /\ ApiServer.promptRefinement (ApiServer.api_health w models_list)
     = status (healthCheck w models_list).
Proof.
  unfold ApiServer.api_health, healthCheck, gpt_selected.
  cbn [ApiServer.openai ApiServer.overall ApiServer.promptRefinement].
  destruct (is_development w) eqn:D.
  - cbn [status healthFeatures openaiConnected].
    split; [split; [now left | reflexivity] |].
    split; [reflexivity |]. split.
    + intros f [= <-]. cbn. split; [reflexivity |].
      split; [reflexivity | intros options; now rewrite andb_false_r].
    + split; [| split; reflexivity].
      split; [discriminate | intros [H _]; discriminate].
  - destruct models_list as [data | e];
      cbn [status healthFeatures openaiConnected].
    + split; [split; [right; now exists data | reflexivity] |].
      split; [discriminate |]. split.
      * intros f [= <-]. cbn. split; [reflexivity |].
        split; [reflexivity |]. intros options.
        now rewrite andb_true_r.
      * split; [| split; reflexivity].
        split; [intros _; split; [reflexivity | now exists data] | reflexivity].
    + split; [split; [discriminate | intros [H | [data H]]; discriminate] |].
      split; [discriminate |]. split; [discriminate |].
      split; [| split; reflexivity].
      split; [discriminate | intros [_ [data H]]; discriminate].
Qed.

Lemma healthCheck_status_witness :
  healthCheck {| NODE_ENV := Some "development";
                 completions_create := fun _ => None |}
    (Throw (JsError "network down"))
  = healthCheck {| NODE_ENV := Some "development";
                   completions_create := fun _ => None |} (Ok (Some 3)).
Proof.
  apply (proj1 (proj2 (healthCheck_status
                  {| NODE_ENV := Some "development";
                     completions_create := fun _ => None |}
                  (Ok (Some 3))))).
  reflexivity.
Defined.

Lemma incl_check (l1 l2 : list string) :
  forallb (fun x => existsb (String.eqb x) l2) l1 = true -> incl l1 l2.
Proof.
  intros F x Hx. rewrite forallb_forall in F. specialize (F x Hx).
  apply existsb_exists in F as (y & Hy & E).
  apply String.eqb_eq in E. now subst y.
Qed.

Lemma existsb_false {A} (f : A -> bool) (l : list A) :
  existsb f l = false <-> forall x, In x l -> f x = false.
Proof.
  split.
  - intros H x Hx. destruct (f x) eqn:E; [| reflexivity].
    assert (existsb f l = true) by (apply existsb_exists; now exists x).
    congruence.
  - intros H. destruct (existsb f l) eqn:E; [| reflexivity].
    apply existsb_exists in E as (x & Hx & Fx). rewrite (H x Hx) in Fx.
    discriminate.
Qed.

(** X11.  The route filter and the service check agree up to nine terms:
    [checkFamilyFriendly] accepts a text exactly when [isContentAppropriate]
    accepts it and none of [murder], [sexy], [marijuana], [satanic],
    [suicide], [self-harm], [cutting], [depression], [anxiety] occurs in its
    lower-cased form.  So a text the service accepts always passes the
    route filter. *)
Theorem route_filter_is_weaker (text : string) :
  (checkFamilyFriendly text = Ok true <->
   ApiServer.isContentAppropriate text = true /\
   forall k, In k service_only_keywords ->
             Js.includes (Js.toLowerCase text) k = false)
  /\ ((exists e, checkFamilyFriendly text = Throw e) \/
      checkFamilyFriendly text = Ok true).
Proof.
  assert (I1 : incl ApiServer.inappropriateKeywords inappropriateKeywords)
    by (apply incl_check; vm_compute; reflexivity).
  assert (I2 : incl service_only_keywords inappropriateKeywords)
    by (apply incl_check; vm_compute; reflexivity).
  assert (I3 : incl inappropriateKeywords
                 (ApiServer.inappropriateKeywords ++ service_only_keywords)%list)
    by (apply incl_check; vm_compute; reflexivity).
  unfold ApiServer.isContentAppropriate.
  rewrite negb_true_iff, existsb_false. split.
  - split.
    + intros H. split; intros k Hk;
        apply (checkFamilyFriendly_Ok text true H); [now apply I1 | now apply I2].
    + intros [H1 H2]. apply checkFamilyFriendly_passes. intros k Hk.
      apply I3, in_app_or in Hk as [Hk | Hk]; [now apply H1 | now apply H2].
  - unfold checkFamilyFriendly.
    destruct (0 <? List.length (foundInappropriate text))%nat;
      [left; eauto | now right].
Qed.

Lemma route_filter_is_weaker_witness :
  ApiServer.isContentAppropriate "a quiet garden" = true
  /\ ApiServer.isContentAppropriate "a murder mystery" = true
  /\ exists e, checkFamilyFriendly "a murder mystery" = Throw e.
Proof.
  split; [| split; [reflexivity | eexists; reflexivity]].
  apply (proj1 (proj1 (route_filter_is_weaker "a quiet garden")) eq_refl).
Defined.

End ServerSide.

(* ------------------------------------------------------------------ *)
(** ** The form and the service *)

Section FormToService.

(** X12.  Whatever the controls of the form hold, the customizations
    object the form sends passes [validateCustomizations], so the form
    cannot cause an invalid-preference error; the settings applied are
    the form's choices, with the documented default for a choice left
    empty; and once the form is valid (description, complexity, age group
    and line thickness filled in) no default is involved for these three
    fields. *)
Theorem form_customizations_accepted (f : PromptForm.formData) :
  PromptForm.from_controls f ->
  (exists v,
     validateCustomizations (PromptForm.customizations f) = Ok v
     /\ with_defaults v = form_settings f)
  /\ valid_config (form_settings f)
  /\ (PromptForm.isFormValid (PromptForm.newValidation f) = true ->
      complexity (form_settings f) = PromptForm.complexity f
      /\ ageGroup (form_settings f) = PromptForm.ageGroup f
      /\ lineThickness (form_settings f) = PromptForm.lineThickness f
      /\ Js.trim (PromptForm.prompt f) <> "").
Proof.
  destruct f as [p t c a b l]. unfold PromptForm.from_controls.
  cbn [PromptForm.theme PromptForm.complexity PromptForm.ageGroup
       PromptForm.lineThickness PromptForm.theme_options
       PromptForm.complexity_options PromptForm.ageGroup_options
       PromptForm.lineThickness_options In].
  intros (Ht & Hc & Ha & Hl).
  assert (V : forall v, PromptForm.isFormValid
                (PromptForm.newValidation
                   {| PromptForm.prompt := p; PromptForm.theme := t;
                      PromptForm.complexity := c; PromptForm.ageGroup := a;
                      PromptForm.border := b; PromptForm.lineThickness := l |})
              = v ->
              v = true -> c <> "" /\ a <> "" /\ l <> "" /\ Js.trim p <> "").
  { unfold PromptForm.isFormValid, PromptForm.newValidation.
    cbn [PromptForm.promptValid PromptForm.complexityValid
         PromptForm.ageGroupValid PromptForm.lineThicknessValid
         PromptForm.prompt PromptForm.complexity PromptForm.ageGroup
         PromptForm.lineThickness].
    intros v <- H.
    apply andb_true_iff in H as [H Hl']. apply andb_true_iff in H as [H Ha'].
    apply andb_true_iff in H as [Hp Hc'].
    apply negb_true_iff in Hc', Ha', Hl'.
    apply String.eqb_neq in Hc', Ha', Hl'.
    repeat split; try assumption.
    intros E. rewrite E in Hp. discriminate. }
  split; [| split].
  - destruct Ht as [<- | [<- | [<- | [<- | [<- | []]]]]];
    destruct Hc as [<- | [<- | [<- | [<- | []]]]];
    destruct Ha as [<- | [<- | [<- | [<- | []]]]];
    destruct Hl as [<- | [<- | [<- | [<- | []]]]];
    destruct b; eexists; split; reflexivity.
  - unfold valid_config, form_settings.
    cbn [complexity ageGroup lineThickness border theme
         PromptForm.theme PromptForm.complexity PromptForm.ageGroup
         PromptForm.lineThickness PromptForm.border].
    split; [| split; [| split; [| split]]].
    + clear - Hc. destruct Hc as [<- | [<- | [<- | [<- | []]]]]; simpl; tauto.
    + clear - Ha. destruct Ha as [<- | [<- | [<- | [<- | []]]]]; simpl; tauto.
    + clear - Hl. destruct Hl as [<- | [<- | [<- | [<- | []]]]]; simpl; tauto.
    + clear. destruct b; simpl; tauto.
    + clear - Ht.
      destruct Ht as [<- | [<- | [<- | [<- | [<- | []]]]]]; simpl; tauto.
  - intros H. destruct (V _ eq_refl H) as (Nc & Na & Nl & Np).
    unfold form_settings.
    cbn [complexity ageGroup lineThickness opt_or
         PromptForm.complexity PromptForm.ageGroup PromptForm.lineThickness
         PromptForm.prompt].
    apply String.eqb_neq in Nc, Na, Nl. now rewrite Nc, Na, Nl.
Qed.

Lemma form_customizations_accepted_witness :
  exists v,
    validateCustomizations
      (PromptForm.customizations
         {| PromptForm.prompt := "a whale"; PromptForm.theme := "";
            PromptForm.complexity := "simple"; PromptForm.ageGroup := "kids";
            PromptForm.border := false; PromptForm.lineThickness := "thin" |})
    = Ok v
    /\ border (with_defaults v) = "without".
Proof.
  destruct (proj1 (form_customizations_accepted
              {| PromptForm.prompt := "a whale"; PromptForm.theme := "";
                 PromptForm.complexity := "simple"; PromptForm.ageGroup := "kids";
                 PromptForm.border := false; PromptForm.lineThickness := "thin" |}
              ltac:(unfold PromptForm.from_controls; simpl; tauto)))
    as (v & E & S).
  exists v. split; [exact E |]. now rewrite S.
Defined.

End FormToService.

(* ------------------------------------------------------------------ *)
(** ** The fallback and the remote paths, end to end *)

Section Paths.

Lemma trim_keeps_tidy (m s : string) :
  tidy m = true -> infix_of m s -> infix_of m (Js.trim s).
Proof.
  intros T (l & r & ->).
  destruct (tidy_parts m T) as (N & T1 & T2 & _ & _).
  unfold Js.trim.
  destruct (trimStart_before l (m ++ r)) as [l' ->];
    [now rewrite starts_with_space_append |].
  rewrite trimEnd_after; rewrite (trimEnd_tail m r N T2).
  - apply infix_refl_app.
  - destruct m; [congruence | discriminate].
Qed.

Lemma trim_keeps_phrase (k s : string) :
  tidy k = true ->
  Js.includes (Js.toLowerCase s) k = true ->
  Js.includes (Js.toLowerCase (Js.trim s)) k = true.
Proof.
  intros T I.
  apply includes_infix in I as (L & R & E).
  apply toLowerCase_split in E as (l & mr & -> & <- & E).
  apply toLowerCase_split in E as (m & r & -> & Em & <-).
  rewrite <- Em, tidy_lower in T.
  destruct (trim_keeps_tidy m _ T (infix_refl_app l m r)) as (l' & r' & ->).
  apply includes_infix. rewrite <- Em, !toLowerCase_append.
  apply infix_refl_app.
Qed.

(** X13.  The fallback is built from the raw prompt: a failed result for a
    string prompt echoes the prompt unsanitized as [originalInput], and
    unless it is the generic string its instruction string carries the
    trimmed raw prompt verbatim.  A block-list term of the prompt is
    therefore still present in the instruction string of the failed
    result. *)
Theorem fallback_keeps_raw_prompt (w : world) (s : string)
    (customizations options : value) (r : result) :
  refinePrompt w (VStr s) customizations options = Ok r ->
  success r = false ->
  refinedPrompt r <> generic_prompt ->
  originalInput r = VStr s
  /\ (exists rest,
        refinedPrompt r
        = "black-and-white line art of " ++ Js.trim s ++ ", " ++ rest)
  /\ (forall k, In k inappropriateKeywords ->
        Js.includes (Js.toLowerCase s) k = true ->
        Js.includes (Js.toLowerCase (refinedPrompt r)) k = true).
Proof.
  unfold refinePrompt, try_catch.
  destruct (refine_try w (VStr s) (default_object customizations)
              (default_object options)) as [r0 | e] eqn:E.
  - intros [= <-] S.
    destruct (refine_try_Ok _ _ _ _ _ E) as (y & v & g & _ & _ & _ & _ & R).
    rewrite R in S. discriminate.
  - rewrite refine_catch_text by reflexivity. intros [= <-] _.
    cbn [refinedPrompt originalInput]. rewrite createFallbackPrompt_default.
    unfold createFallbackPrompt.
    destruct (build_fallback (VStr s) (default_object customizations))
      as [text | e'] eqn:B; [| congruence].
    intros _. apply build_fallback_head in B as [rest ->].
    change (fallback_subject (VStr s)) with (Js.trim s).
    split; [reflexivity |]. split; [now exists rest |].
    intros k Hin K.
    pose proof (trim_keeps_phrase k s (inappropriateKeywords_tidy k Hin) K) as T.
    apply includes_infix in T. apply includes_infix.
    rewrite !toLowerCase_append.
    apply infix_prepend, infix_postpend. exact T.
Qed.

Lemma fallback_keeps_raw_prompt_witness :
  match refinePrompt quiet (VStr "a big KNIFE") (VObj []) VUndefined with
  | Ok r => Js.includes (Js.toLowerCase (refinedPrompt r)) "knife" = true
  | Throw _ => False
  end.
Proof.
  destruct (refinePrompt quiet (VStr "a big KNIFE") (VObj []) VUndefined)
    as [r | e] eqn:E.
  - assert (S : success r = false)
      by (vm_compute in E; injection E as <-; reflexivity).
    assert (G : refinedPrompt r <> generic_prompt)
      by (vm_compute in E; injection E as <-; vm_compute; discriminate).
    apply (proj2 (proj2 (fallback_keeps_raw_prompt _ _ _ _ r E S G)));
      [simpl; tauto | reflexivity].
  - vm_compute in E. discriminate.
Defined.

Lemma refine_try_remote (w : world) (userInput customizations options : value)
    (y : string) (v : validatedCustomizations) (b : bool) (g : value) :
  sanitizeText userInput = Ok y ->
  validateCustomizations customizations = Ok v ->
  checkFamilyFriendly y = Ok b ->
  get_field options "useGPT" = Ok g ->
  truthy g && negb (is_development w) = true ->
  refine_try w userInput customizations options =
  Ok {| success := true;
        refinedPrompt := gptRefinement w y (with_defaults v);
        originalInput := VStr y;
        detectedCategory := Some (detectSubjectCategory y);
        appliedSettings := Some (with_defaults v);
        error := None;
        meta := {| method := "gpt-enhanced"; sanitized := true;
                   familyFriendly := Some true |} |}.
Proof.
  intros Hy Hv Hc Hg G. unfold refine_try, bind.
  now rewrite Hy, Hv, Hc, Hg, G.
Qed.

(** X14.  On the remote path the reply of the completion service goes into
    the result as it is: for an accepted prompt and accepted
    customizations, with the remote path selected and the service
    replying, the result is a success of method [gpt-enhanced] whose
    instruction string is the trimmed reply followed by the fixed clause
    list; the category is still the one detected from the sanitized
    prompt. *)
Theorem remote_reply_used_verbatim (w : world) (s : string)
    (customizations options : value) (y content : string)
    (v : validatedCustomizations) :
  sanitizeText (VStr s) = Ok y ->
  validateCustomizations (default_object customizations) = Ok v ->
  checkFamilyFriendly y = Ok true ->
  gpt_selected w options = true ->
  completions_create w (enhancementPrompt y (with_defaults v)) = Some content ->
  exists r,
    refinePrompt w (VStr s) customizations options = Ok r
    /\ success r = true
    /\ method (meta r) = "gpt-enhanced"
    /\ refinedPrompt r = Js.trim content ++ gpt_suffix
    /\ detectedCategory r = Some (detectSubjectCategory y)
    /\ appliedSettings r = Some (with_defaults v).
Proof.
  intros Hy Hv Hc G Hr. unfold gpt_selected, raw_field in G.
  destruct (get_field (default_object options) "useGPT") as [g |] eqn:Hg;
    [| discriminate].
  unfold refinePrompt, try_catch.
  rewrite (refine_try_remote w _ _ _ y v true g Hy Hv Hc Hg G).
  eexists. split; [reflexivity |].
  cbn [success meta method refinedPrompt detectedCategory appliedSettings].
  repeat (split; [reflexivity |]).
  split; [| split; reflexivity].
  unfold gptRefinement. now rewrite Hr.
Qed.

Lemma remote_reply_used_verbatim_witness :
  exists r,
    refinePrompt {| NODE_ENV := Some "production";
                    completions_create := fun _ => Some " A scary dog.  " |}
      (VStr "a cute dog") (VObj []) with_gpt = Ok r
    /\ refinedPrompt r = "A scary dog." ++ gpt_suffix.
Proof.
  destruct (remote_reply_used_verbatim
              {| NODE_ENV := Some "production";
                 completions_create := fun _ => Some " A scary dog.  " |}
              "a cute dog" (VObj []) with_gpt "a cute dog" " A scary dog.  "
              no_customizations eq_refl eq_refl eq_refl eq_refl eq_refl)
    as (r & E & _ & _ & P & _).
  exists r. split; [exact E | exact P].
Defined.

Lemma validateCustomizations_by_fields (c : value) :
  validateCustomizations c =
  if existsb (rejected c) recognized
  then Throw (JsError
         (if rejected c ("complexity", complexity_levels) then "Invalid complexity level"
          else if rejected c ("ageGroup", age_groups) then "Invalid age group"
          else if rejected c ("lineThickness", line_thicknesses) then "Invalid line thickness"
          else if rejected c ("border", border_options) then "Invalid border option"
          else "Invalid theme"))
  else Ok {| vc_complexity := survives c "complexity" complexity_levels;
             vc_ageGroup := survives c "ageGroup" age_groups;
             vc_lineThickness := survives c "lineThickness" line_thicknesses;
             vc_border := survives c "border" border_options;
             vc_theme := survives c "theme" validThemes |}.
Proof.
  destruct c as [| | b | n | s | items | props];
    try (rewrite validateCustomizations_not_object by discriminate;
         reflexivity).
  apply validateCustomizations_object.
Qed.

(** X15.  [validateCustomizations] looks at the five recognized fields and
    at nothing else: two arguments with the same raw values there get the
    same answer, whatever other fields they carry.  When it throws, the
    message is that of the first rejected field in the order complexity,
    age group, line thickness, border, theme. *)
Theorem validateCustomizations_fields_only (c1 c2 : value) :
  ((forall field, In field recognized ->
      raw_field c1 (fst field) = raw_field c2 (fst field)) ->
   validateCustomizations c1 = validateCustomizations c2)
  /\ (forall e, validateCustomizations c1 = Throw e ->
        exists field,
          find (rejected c1) recognized = Some field
          /\ e = JsError (field_message (fst field))).
Proof.
  split.
  - intros H. rewrite !validateCustomizations_by_fields.
    assert (R : forall field, In field recognized ->
                rejected c1 field = rejected c2 field)
      by (intros field Hin; unfold rejected; now rewrite (H field Hin)).
    assert (S : forall field, In field recognized ->
                survives c1 (fst field) (snd field)
                = survives c2 (fst field) (snd field))
      by (intros field Hin; unfold survives; now rewrite (H field Hin)).
    unfold recognized in *. cbn [existsb].
    rewrite !(R (_, _)) by (simpl; tauto).
    pose proof (S ("complexity", complexity_levels)) as S1.
    pose proof (S ("ageGroup", age_groups)) as S2.
    pose proof (S ("lineThickness", line_thicknesses)) as S3.
    pose proof (S ("border", border_options)) as S4.
    pose proof (S ("theme", validThemes)) as S5.
    cbn [fst snd] in S1, S2, S3, S4, S5.
    rewrite S1, S2, S3, S4, S5 by (simpl; tauto). reflexivity.
  - intros e. rewrite validateCustomizations_by_fields.
    unfold recognized. cbn [existsb find].
    destruct (rejected c1 ("complexity", complexity_levels));
      [intros [= <-]; eexists; split; reflexivity |].
    destruct (rejected c1 ("ageGroup", age_groups));
      [intros [= <-]; eexists; split; reflexivity |].
    destruct (rejected c1 ("lineThickness", line_thicknesses));
      [intros [= <-]; eexists; split; reflexivity |].
    destruct (rejected c1 ("border", border_options));
      [intros [= <-]; eexists; split; reflexivity |].
    destruct (rejected c1 ("theme", validThemes));
      [intros [= <-]; eexists; split; reflexivity | discriminate].
Qed.

Lemma validateCustomizations_fields_only_witness :
  validateCustomizations
    (VObj [("size", VNum 3); ("ageGroup", VStr "teens"); ("extra", VNull)])
  = validateCustomizations (VObj [("ageGroup", VStr "teens")])
  /\ exists field,
       find (rejected (VObj [("theme", VStr "space"); ("border", VNum 1)]))
         recognized = Some field
       /\ fst field = "border".
Proof.
  split.
  - apply (proj1 (validateCustomizations_fields_only
                    (VObj [("size", VNum 3); ("ageGroup", VStr "teens");
                           ("extra", VNull)])
                    (VObj [("ageGroup", VStr "teens")]))).
    intros field Hin. simpl in Hin.
    destruct Hin as [<- | [<- | [<- | [<- | [<- | []]]]]]; reflexivity.
  - destruct (proj2 (validateCustomizations_fields_only
                       (VObj [("theme", VStr "space"); ("border", VNum 1)])
                       VNull)
                (JsError "Invalid border option") eq_refl) as (field & F & _).
    exists field. split; [exact F |].
    vm_compute in F. now injection F as <-.
Defined.

End Paths.
